(** * NFA cellular automaton (Mesa model): embedding and verified properties

    Shallow embedding of [model.py] (class [NFACAModel]) and [agent.py]
    (class [NFACellAgent]).

    Conventions of the embedding:
    - Python [str] states and symbols are [string]s, compared with [String.eqb];
    - Python numbers used as probabilities are exact rationals ([Q]); the
      literals [0.7] and [0.3] are [7#10] and [3#10], and [>], [<], [<=] are
      the boolean comparisons [Qgtb], [Qltb], [Qle_bool];
    - [disable_chaotic] is a Python number or bool: an integer ([Z]) with
      [True] = 1 and [False] = 0.  [if x:] is [truthy x], [x == 1] is [x =? 1];
    - the process-wide generator of module [random] is a fixed sequence of
      draws [draws : nat -> Q] together with a counter (the state threaded by
      the monad [M]); [random.random()] returns the draw under the counter and
      advances it;
    - exceptions are the constructors of [exn]; computations that may raise
      live in [M].
    - agents are mutable shared objects: the schedule's agent list is the
      store, grid queries read agents from that store, and [agent.step]
      updates the stepped agent inside it. *)

From Stdlib Require Import String List ZArith QArith Bool Lia Permutation.
Import ListNotations.
Open Scope string_scope.
Open Scope list_scope.
Open Scope Z_scope.

(** ** Outcomes and the random-state monad *)

Inductive exn : Type :=
| KeyError
| ValueError
| IndexError.

Inductive outcome (A : Type) : Type :=
| Ok (a : A)
| Raised (e : exn).
Arguments Ok {A} a.
Arguments Raised {A} e.

(** A computation reads and advances the counter of the random generator. *)
Definition M (A : Type) : Type := nat -> outcome (A * nat).

Definition ret {A} (a : A) : M A := fun s => Ok (a, s).
Definition raise {A} (e : exn) : M A := fun _ => Raised e.
Definition bind {A B} (c : M A) (k : A -> M B) : M B :=
  fun s => match c s with
           | Ok (a, s') => k a s'
           | Raised e => Raised e
           end.

Notation "x <- c ;; k" := (bind c (fun x => k))
  (at level 61, c at next level, right associativity).

Definition is_ok {A} (o : outcome A) : bool :=
  match o with Ok _ => true | Raised _ => false end.

(** ** Numbers *)

Definition Qgtb (x y : Q) : bool := negb (Qle_bool x y).
Definition Qltb (x y : Q) : bool := negb (Qle_bool y x).

(** Python truthiness of a number. *)
Definition truthy (z : Z) : bool := negb (z =? 0).

(** [sum(1 for x in xs if f x)] *)
Definition count_where {A} (f : A -> bool) (xs : list A) : Z :=
  fold_right Z.add 0 (map (fun _ => 1) (filter f xs)).

(** ** Python built-ins used by the program *)

Section Sorted.
Context {A : Type}.
Variable key : A -> bool.

(** Python orders [False < True]. *)
Definition key_le (x y : A) : bool := implb (key x) (key y).

(** [x] stood before every element of [l] in the input: it stays before
    those whose key is not smaller. *)
Fixpoint insert_sorted (x : A) (l : list A) : list A :=
  match l with
  | [] => [x]
  | y :: l' => if key_le x y then x :: l else y :: insert_sorted x l'
  end.

(** [sorted(l, key=key)]: ascending and stable. *)
Fixpoint sorted (l : list A) : list A :=
  match l with
  | [] => []
  | x :: l' => insert_sorted x (sorted l')
  end.
End Sorted.

(** [itertools.accumulate(ws)]: running sums. *)
Fixpoint accumulate_from (acc : Q) (ws : list Q) : list Q :=
  match ws with
  | [] => []
  | w :: ws' => let acc' := (acc + w)%Q in acc' :: accumulate_from acc' ws'
  end.

Definition accumulate (ws : list Q) : list Q :=
  match ws with
  | [] => []
  | w :: ws' => w :: accumulate_from w ws'
  end.

(** [bisect.bisect_right(a, x, lo, hi)]; the loop runs at most [hi - lo]
    times, which is the fuel. *)
Fixpoint bisect_loop (fuel : nat) (a : list Q) (x : Q) (lo hi : nat) : nat :=
  match fuel with
  | O => lo
  | S fuel' =>
      if (lo <? hi)%nat then
        let mid := ((lo + hi) / 2)%nat in
        if Qltb x (nth mid a 0%Q)
        then bisect_loop fuel' a x lo mid
        else bisect_loop fuel' a x (mid + 1)%nat hi
      else lo
  end.

Definition bisect (a : list Q) (x : Q) (lo hi : nat) : nat :=
  bisect_loop (hi - lo) a x lo hi.

Section Random.
Variable draws : nat -> Q.

(** [random.random()] *)
Definition random : M Q := fun s => Ok (draws s, S s).

(** [random.choices(population, weights=weights, k=1)[0]], after CPython:
    cumulative weights, a length check, a positive total, then one draw
    scaled by the total and located by bisection below [hi = n - 1].
    (Rationals are finite: the finiteness check cannot fail.) *)
Definition choices {A} (population : list A) (weights : list Q) : M A :=
  let n := length population in
  let cum_weights := accumulate weights in
  if negb (length cum_weights =? n)%nat then raise ValueError
  else match last (map Some cum_weights) None with
       | None => raise IndexError
       | Some total =>
           if Qle_bool total 0 then raise ValueError
           else
             r <- random ;;
             match nth_error population
                     (bisect cum_weights (r * total)%Q 0 (n - 1)) with
             | Some c => ret c
             | None => raise IndexError
             end
       end.
End Random.

(** ** Data model *)

(** Keys of the transition table: (current state, input symbol). *)
Definition Key : Type := (string * string)%type.

Definition key_eqb (k1 k2 : Key) : bool :=
  (fst k1 =? fst k2)%string && (snd k1 =? snd k2)%string.

(** [d[k]] on a dict with unique keys, kept in insertion order. *)
Fixpoint lookup {V} (k : Key) (d : list (Key * V)) : option V :=
  match d with
  | [] => None
  | (k', v) :: d' => if key_eqb k k' then Some v else lookup k d'
  end.

(** [self.BASE_TRANSITIONS], model.py lines 56-77. *)
Definition BASE_TRANSITIONS : list (Key * list string) :=
  [ (("Alive", "L"), ["Alive"; "Stable"]);
    (("Alive", "M"), ["Dying"; "Chaotic"]);
    (("Alive", "H"), ["Chaotic"; "Dying"]);
    (("Dying", "L"), ["Stable"; "Alive"]);
    (("Dying", "M"), ["Chaotic"; "Alive"]);
    (("Dying", "H"), ["Chaotic"; "Dying"]);
    (("Stable", "L"), ["Alive"; "Stable"]);
    (("Stable", "M"), ["Dying"; "Stable"]);
    (("Stable", "H"), ["Chaotic"; "Stable"]);
    (("Chaotic", "L"), ["Stable"; "Alive"]);
    (("Chaotic", "M"), ["Alive"; "Dying"]);
    (("Chaotic", "H"), ["Chaotic"; "Dying"]) ].

Record NFACellAgent : Type := mkAgent {
  unique_id : Z * Z;
  pos : Z * Z;
  state : string;
  next_state : string
}.

Definition set_next_state (a : NFACellAgent) (s : string) : NFACellAgent :=
  mkAgent (unique_id a) (pos a) (state a) s.

Record NFACAModel : Type := mkModel {
  width : Z;
  height : Z;
  branch_prob : Q;
  chaos_bias : Q;
  disable_chaotic : Z;
  (** [schedule.agents]; the grid holds the same objects, found by [pos]. *)
  agents : list NFACellAgent;
  (** [datacollector.model_vars]: one series per reporter. *)
  model_vars : list (string * list Z)
}.

Definition set_agents (m : NFACAModel) (l : list NFACellAgent) : NFACAModel :=
  mkModel (width m) (height m) (branch_prob m) (chaos_bias m)
          (disable_chaotic m) l (model_vars m).

Definition set_model_vars (m : NFACAModel) (v : list (string * list Z))
  : NFACAModel :=
  mkModel (width m) (height m) (branch_prob m) (chaos_bias m)
          (disable_chaotic m) (agents m) v.

(** ** Transition-table rewiring: [NFACAModel.get_transitions] *)

(** model.py lines 117-127: the copy of the base list, reordered by bias. *)
Definition reorder (chaos_bias : Q) (states : list string) : list string :=
  if Qgtb chaos_bias (7#10) then
    sorted (fun s => negb (s =? "Chaotic")%string) states
  else if Qltb chaos_bias (3#10) then
    sorted (fun s => (s =? "Chaotic")%string) states
  else states.

(** model.py lines 130-136: removal of Chaotic and the fallback. *)
Definition prune (disable_chaotic : Z) (reordered : list string)
  : list string :=
  if truthy disable_chaotic then
    let reordered := filter (fun s => negb (s =? "Chaotic")%string) reordered in
    match reordered with
    | [] => ["Stable"]
    | _ :: _ => reordered
    end
  else reordered.

(** Body of the loop of [get_transitions]: the list stored for one base
    list (the [candidates] of the specification). *)
Definition candidates (chaos_bias : Q) (disable_chaotic : Z)
  (states : list string) : list string :=
  prune disable_chaotic (reorder chaos_bias states).

Definition get_transitions (m : NFACAModel) : list (Key * list string) :=
  map (fun kv => (fst kv, candidates (chaos_bias m) (disable_chaotic m) (snd kv)))
      BASE_TRANSITIONS.

(** ** The grid (Mesa's toroidal [MultiGrid]) *)

Definition pos_eqb (p q : Z * Z) : bool :=
  (fst p =? fst q) && (snd p =? snd q).

Fixpoint dedup (l : list (Z * Z)) : list (Z * Z) :=
  match l with
  | [] => []
  | p :: l' => p :: filter (fun q => negb (pos_eqb q p)) (dedup l')
  end.

(** [grid.get_neighborhood(pos, moore=True, include_center=False)], radius 1
    on a torus: the wrapped coordinates of the 3x3 block, each once, without
    [pos] itself. *)
Definition get_neighborhood (m : NFACAModel) (p : Z * Z) : list (Z * Z) :=
  let block :=
    flat_map (fun dy =>
      map (fun dx => ((fst p + dx) mod width m, (snd p + dy) mod height m))
          [-1; 0; 1]) [-1; 0; 1] in
  filter (fun q => negb (pos_eqb q p)) (dedup block).

(** [grid.get_neighbors(pos, moore=True, include_center=False)]: the agents
    standing on the neighbourhood's cells. *)
Definition get_neighbors (m : NFACAModel) (p : Z * Z) : list NFACellAgent :=
  flat_map (fun c => filter (fun a => pos_eqb (pos a) c) (agents m))
           (get_neighborhood m p).

(** ** The cell agent: [NFACellAgent] *)

(** agent.py lines 38-43. *)
Definition input_symbol_of (alive_neighbors : Z) : string :=
  if alive_neighbors <=? 2 then "L"
  else if alive_neighbors <=? 4 then "M"
  else "H".

(** agent.py line 34. *)
Definition alive_neighbors_of (neighbors : list NFACellAgent) : Z :=
  count_where (fun n => (state n =? "Alive")%string) neighbors.

(** agent.py lines 72-73. *)
Definition override (disable_chaotic : Z) (next : string) : string :=
  if (disable_chaotic =? 1) && (next =? "Chaotic")%string
  then "Stable" else next.

(** [NFACellAgent.advance] *)
Definition advance (a : NFACellAgent) : NFACellAgent :=
  mkAgent (unique_id a) (pos a) (next_state a) (next_state a).

(** The four reporters of the data collector, in order; each label is the
    state it counts. *)
Definition reporters : list string := ["Alive"; "Dying"; "Stable"; "Chaotic"].

(** [NFACAModel.count_state] *)
Definition count_state (m : NFACAModel) (st : string) : Z :=
  count_where (fun a => (state a =? st)%string) (agents m).

(** [datacollector.collect(self)]: every reporter appends its value. *)
Definition collect (m : NFACAModel) : NFACAModel :=
  set_model_vars m
    (map (fun series => (fst series, snd series ++ [count_state m (fst series)]))
         (model_vars m)).

(** [range(n)] *)
Definition range (n : Z) : list Z := map Z.of_nat (seq 0 (Z.to_nat n)).

(** [for x in xs: acc = body(acc, x)] *)
Fixpoint for_each {A B} (xs : list A) (body : B -> A -> M B) (acc : B) : M B :=
  match xs with
  | [] => ret acc
  | x :: xs' => acc' <- body acc x ;; for_each xs' body acc'
  end.

Section Simulation.
Variable draws : nat -> Q.

(** agent.py lines 54-67: deterministic with one candidate, a weighted draw
    otherwise. *)
Definition resolve (branch_prob : Q) (possible_states : list string)
  : M string :=
  if (length possible_states =? 1)%nat then
    match possible_states with
    | c :: _ => ret c
    | [] => raise IndexError
    end
  else
    let weights := [branch_prob; (1 - branch_prob)%Q] in
    choices draws possible_states weights.

(** [NFACellAgent.step], run against the model [m] whose store is the
    current one; returns the agent with its staged [next_state]. *)
Definition agent_step (m : NFACAModel) (self : NFACellAgent)
  : M NFACellAgent :=
  let neighbors := get_neighbors m (pos self) in
  let alive_neighbors := alive_neighbors_of neighbors in
  let input_symbol := input_symbol_of alive_neighbors in
  let transitions := get_transitions m in
  match lookup (state self, input_symbol) transitions with
  | None => raise KeyError
  | Some possible_states =>
      next <- resolve (branch_prob m) possible_states ;;
      ret (set_next_state self (override (disable_chaotic m) next))
  end.

(** First loop of [SimultaneousActivation.step]: the agents of [todo] step
    in turn; [done] are the agents already stepped, as they now stand in the
    store. *)
Fixpoint step_agents (m : NFACAModel) (done todo : list NFACellAgent)
  : M (list NFACellAgent) :=
  match todo with
  | [] => ret done
  | a :: rest =>
      a' <- agent_step (set_agents m (done ++ a :: rest)) a ;;
      step_agents m (done ++ [a']) rest
  end.

(** [SimultaneousActivation.step]: every agent steps, then every agent
    advances. *)
Definition schedule_step (m : NFACAModel) : M NFACAModel :=
  staged <- step_agents m [] (agents m) ;;
  ret (set_agents m (map advance staged)).

(** [NFACAModel.step] *)
Definition model_step (m : NFACAModel) : M NFACAModel :=
  let m := collect m in
  schedule_step m.

(** [NFACAModel.__init__] *)
Definition model_init (initial_alive branch_prob chaos_bias : Q)
  (disable_chaotic : Z) : M NFACAModel :=
  let width := 20 in
  let height := 20 in
  placed <-
    for_each (range width) (fun acc x =>
      for_each (range height) (fun acc y =>
        r <- random draws ;;
        let state := if Qltb r initial_alive then "Alive" else "Stable" in
        let agent := mkAgent (x, y) (x, y) state state in
        ret (acc ++ [agent])) acc) [] ;;
  ret (mkModel width height branch_prob chaos_bias disable_chaotic placed
         (map (fun label => (label, [])) reporters)).

(** [n] calls of [model.step()]. *)
Fixpoint run (n : nat) (m : NFACAModel) : M NFACAModel :=
  match n with
  | O => ret m
  | S n' => m' <- model_step m ;; run n' m'
  end.

End Simulation.

(** * Specification-side definitions

    Predicates, closed forms and examples used to state the properties. *)

(** The two sort keys of [get_transitions]: [s == "Chaotic"] and
    [s != "Chaotic"]. *)
Definition is_chaotic (s : string) : bool := (s =? "Chaotic")%string.

Definition not_chaotic (s : string) : bool := negb (s =? "Chaotic")%string.

(** An empty 20x20 model with the given bias and flag, to look tables up
    in. *)
Definition example_model (cb : Q) (d : Z) : NFACAModel :=
  mkModel 20 20 (1#2) cb d [] [].

(** The four states of the automaton and the three input symbols. *)
Definition valid_state (s : string) : Prop :=
  s = "Alive" \/ s = "Dying" \/ s = "Stable" \/ s = "Chaotic".

Definition valid_stateb (s : string) : bool :=
  (s =? "Alive")%string || (s =? "Dying")%string ||
  (s =? "Stable")%string || (s =? "Chaotic")%string.

Definition valid_symbol (x : string) : Prop :=
  x = "L" \/ x = "M" \/ x = "H".

(** Everything the program relies on about a candidate list, as one
    decidable check: one or two candidates, all of them states of the
    automaton, none Chaotic when [dis] is set. *)
Definition good_candidates (dis : bool) (l : list string) : bool :=
  ((length l =? 1)%nat || (length l =? 2)%nat) &&
  forallb valid_stateb l &&
  implb dis (forallb not_chaotic l).

(** [random.random()] is uniform over the [N] values [k/N], [0 <= k < N]
    (CPython: [N = 2^53]).  The frequency of an event is the number of
    these draws on which it happens, out of [N]. *)
Definition uniform_draws (N : nat) : list Q :=
  map (fun k => Z.of_nat k # Pos.of_nat N) (seq 0 N).

(** The candidate that agent.py lines 54-67 select when the next draw of the
    generator is [r]. *)
Definition selected (bp : Q) (possible_states : list string) (r : Q)
  : outcome string :=
  match resolve (fun _ => r) bp possible_states 0%nat with
  | Ok (c, _) => Ok c
  | Raised e => Raised e
  end.

(** Whether that candidate is [c]. *)
Definition selects (bp : Q) (possible_states : list string) (c : string)
  (r : Q) : bool :=
  match selected bp possible_states r with
  | Ok c' => (c' =? c)%string
  | Raised _ => false
  end.

(** What the grid and the other agents can show of an agent to a stepping
    cell: where it stands and its current state. *)
Definition visible (a : NFACellAgent) : (Z * Z) * string := (pos a, state a).

(** agent.py lines 46-73 for a cell in state [own] reading [symbol]: table
    lookup, resolution, override. *)
Definition transition (draws : nat -> Q) (bp cb : Q) (d : Z)
  (own symbol : string) : M string :=
  match lookup (own, symbol)
          (map (fun kv => (fst kv, candidates cb d (snd kv))) BASE_TRANSITIONS)
  with
  | None => raise KeyError
  | Some possible_states =>
      next <- resolve draws bp possible_states ;;
      ret (override d next)
  end.

(** Specification-side [computeNext]: the next state as a function of the
    parameters, the cell's own state, the states of its neighbours and the
    generator. *)
Definition computeNext (draws : nat -> Q) (bp cb : Q) (d : Z)
  (own : string) (neighbor_states : list string) : M string :=
  let alive := count_where (fun s => (s =? "Alive")%string) neighbor_states in
  transition draws bp cb d own (input_symbol_of alive).

(** Specification-side compute phase: every agent of [todo] steps against
    the same model [m0], the snapshot taken before the step. *)
Fixpoint snapshot_step (draws : nat -> Q) (m0 : NFACAModel)
  (todo : list NFACellAgent) : M (list NFACellAgent) :=
  match todo with
  | [] => ret []
  | a :: rest =>
      a' <- agent_step draws m0 a ;;
      rest' <- snapshot_step draws m0 rest ;;
      ret (a' :: rest')
  end.

(** The agent created at [(x, y)] when the draw is [r] (model.py lines
    86-89). *)
Definition new_agent (initial_alive : Q) (x y : Z) (r : Q) : NFACellAgent :=
  let state := if Qltb r initial_alive then "Alive" else "Stable" in
  mkAgent (x, y) (x, y) state state.

(** Closed forms of the two loops of the constructor: one draw per cell, in
    the order of the loops. *)
Fixpoint draw_row {A} (draws : nat -> Q) (g : Z -> Q -> A) (ys : list Z)
  (s : nat) : list A :=
  match ys with
  | [] => []
  | y :: ys' => g y (draws s) :: draw_row draws g ys' (S s)
  end.

Fixpoint draw_rows {A} (draws : nat -> Q) (g : Z -> Z -> Q -> A)
  (xs ys : list Z) (s : nat) : list A :=
  match xs with
  | [] => []
  | x :: xs' =>
      draw_row draws (g x) ys s ++ draw_rows draws g xs' ys (s + length ys)
  end.

(** The coordinates of a [w] x [h] grid, in the order of the constructor's
    loops. *)
Definition grid_positions (w h : Z) : list (Z * Z) :=
  flat_map (fun x => map (fun y => (x, y)) (range h)) (range w).

(** [a'] is the cell [a] after a step that started with the generator at
    [s] and left it at [s']: same identity and place, and a state computed
    from the pre-step states of [a] and of its neighbours in [m]. *)
Definition next_from_snapshot (draws : nat -> Q) (m : NFACAModel)
  (s s' : nat) (a a' : NFACellAgent) : Prop :=
  unique_id a' = unique_id a /\ pos a' = pos a /\
  exists k k', (s <= k)%nat /\ (k' <= s')%nat /\
    computeNext draws (branch_prob m) (chaos_bias m) (disable_chaotic m)
      (state a) (map state (get_neighbors m (pos a))) k = Ok (state a', k').

(** All cells are in one of the four states; none is Chaotic when [dis]. *)
Definition states_ok (dis : bool) (l : list NFACellAgent) : Prop :=
  Forall (fun a => valid_state (state a) /\
                   (dis = true -> state a <> "Chaotic")) l.

(** Sum of [count_state] over the four states. *)
Definition population (m : NFACAModel) : Z :=
  count_state m "Alive" + count_state m "Dying" +
  count_state m "Stable" + count_state m "Chaotic".

(** [m'] has the size and the parameters of [m]. *)
Definition same_parameters (m m' : NFACAModel) : Prop :=
  width m' = width m /\ height m' = height m /\
  branch_prob m' = branch_prob m /\ chaos_bias m' = chaos_bias m /\
  disable_chaotic m' = disable_chaotic m.

(** A generator whose every draw is 1/2. *)
Definition half_draws : nat -> Q := fun _ => 1 # 2.

(** A 3x3 torus with six Alive cells and three Stable ones, first candidate
    always taken: every Alive cell has five Alive neighbours before the step,
    and four as soon as one of them has moved on. *)
Definition small_model : NFACAModel :=
  mkModel 3 3 1 (1#2) 0
    (map (fun c => mkAgent (fst c) (fst c) (snd c) (snd c))
       [((0,0), "Alive"); ((0,1), "Alive"); ((0,2), "Alive");
        ((1,0), "Alive"); ((1,1), "Alive"); ((1,2), "Alive");
        ((2,0), "Stable"); ((2,1), "Stable"); ((2,2), "Stable")])
    (map (fun label => (label, [])) reporters).

(** The same grid one step later: the series hold the counts taken before
    the step, and every cell, having read five or six Alive neighbours, is
    Chaotic. *)
Definition small_model_after : NFACAModel :=
  mkModel 3 3 1 (1#2) 0
    (map (fun c => mkAgent c c "Chaotic" "Chaotic")
       [(0,0); (0,1); (0,2); (1,0); (1,1); (1,2); (2,0); (2,1); (2,2)])
    [("Alive", [6]); ("Dying", [0]); ("Stable", [3]); ("Chaotic", [0])].

(** Number of the [N] equally likely draws on which a cell in state [own]
    reading [symbol] moves to Chaotic. *)
Definition chaotic_draws (N : nat) (bp cb : Q) (d : Z) (own symbol : string)
  : Z :=
  count_where
    (fun r => match transition (fun _ => r) bp cb d own symbol 0%nat with
              | Ok (c, _) => (c =? "Chaotic")%string
              | Raised _ => false
              end)
    (uniform_draws N).

(** ** Visualisation: run.py *)

(** Values stored in a portrayal: strings and integers. *)
Inductive pyval : Type :=
| PStr (s : string)
| PInt (z : Z).

(** [d[k]] and [d[k] = v] on a dict with string keys: an existing key keeps
    its place, a new one goes last. *)
Fixpoint dict_get {V} (k : string) (d : list (string * V)) : option V :=
  match d with
  | [] => None
  | (k', v) :: d' => if (k =? k')%string then Some v else dict_get k d'
  end.

Fixpoint dict_set {V} (k : string) (v : V) (d : list (string * V))
  : list (string * V) :=
  match d with
  | [] => [(k, v)]
  | (k', v') :: d' =>
      if (k =? k')%string then (k, v) :: d' else (k', v') :: dict_set k v d'
  end.

(** [agent_portrayal], run.py lines 14-36. *)
Definition agent_portrayal (agent : NFACellAgent) : list (string * pyval) :=
  let portrayal :=
    [("Shape", PStr "rect"); ("w", PInt 1); ("h", PInt 1);
     ("Filled", PStr "true"); ("Layer", PInt 0)] in
  if (state agent =? "Alive")%string then
    dict_set "Color" (PStr "green") portrayal
  else if (state agent =? "Dying")%string then
    dict_set "Color" (PStr "red") portrayal
  else if (state agent =? "Stable")%string then
    dict_set "Color" (PStr "purple") portrayal
  else
    dict_set "Color" (PStr "gray") portrayal.

(** The size in cells given to [CanvasGrid], run.py lines 40-46. *)
Definition canvas_width : Z := 20.
Definition canvas_height : Z := 20.

(** ** Further specification-side definitions *)

(** The state the constructor gives a cell whose draw is [r]. *)
Definition seeded_state (initial_alive r : Q) : string :=
  if Qltb r initial_alive then "Alive" else "Stable".

(** A full 20x20 grid whose cells all hold [st]. *)
Definition uniform_model (bp cb : Q) (d : Z) (st : string) : NFACAModel :=
  mkModel 20 20 bp cb d
    (map (fun p => mkAgent p p st st) (grid_positions 20 20))
    (map (fun label => (label, [])) reporters).

(** The four series of the collector hold [k] samples each, and the four
    samples of every step add up to [total]. *)
Definition series_ok (total : Z) (k : nat) (vars : list (string * list Z))
  : Prop :=
  exists la ld ls lc,
    vars = [("Alive", la); ("Dying", ld); ("Stable", ls); ("Chaotic", lc)] /\
    length la = k /\ length ld = k /\ length ls = k /\ length lc = k /\
    forall i, (i < k)%nat ->
      nth i la 0 + nth i ld 0 + nth i ls 0 + nth i lc 0 = total.

(** A 3x3 torus of Stable cells: no cell has an Alive neighbour. *)
Definition quiet_model : NFACAModel :=
  mkModel 3 3 (1#2) (8#10) 0
    (map (fun c => mkAgent c c "Stable" "Stable")
       [(0,0); (0,1); (0,2); (1,0); (1,1); (1,2); (2,0); (2,1); (2,2)])
    (map (fun label => (label, [])) reporters).

(** * Properties *)


(** ** Stable sorting on a boolean key *)

Section SortedFacts.
Context {A : Type}.
Variable key : A -> bool.

Lemma insert_sorted_low (x : A) (l : list A) :
  key x = false -> insert_sorted key x l = x :: l.
Proof.
  intros Hx. destruct l as [|y l]; simpl; [reflexivity|].
  unfold key_le. now rewrite Hx.
Qed.

Lemma insert_sorted_high (x : A) (lo hi : list A) :
  key x = true ->
  Forall (fun y => key y = false) lo ->
  Forall (fun y => key y = true) hi ->
  insert_sorted key x (lo ++ hi) = lo ++ x :: hi.
Proof.
  intros Hx Hlo Hhi. induction Hlo as [|y lo Hy Hlo IH]; simpl.
  - destruct hi as [|z hi]; simpl; [reflexivity|].
    inversion Hhi as [|? ? Hz _]; subst.
    unfold key_le. now rewrite Hx, Hz.
  - unfold key_le. rewrite Hx, Hy. simpl. now rewrite IH.
Qed.

Lemma Forall_filter_key (b : bool) (l : list A) :
  Forall (fun y => key y = b) (filter (fun y => Bool.eqb (key y) b) l).
Proof.
  apply Forall_forall. intros y Hy. apply filter_In in Hy.
  destruct Hy as [_ Hy]. now apply Bool.eqb_prop in Hy.
Qed.

(** A stable sort on a two-valued key is a stable partition: the elements
    with key [False], then those with key [True], each group in its
    original order. *)
Lemma sorted_partition (l : list A) :
  sorted key l =
  filter (fun y => negb (key y)) l ++ filter key l.
Proof.
  assert (E1 : forall l', filter (fun y => negb (key y)) l'
                          = filter (fun y => Bool.eqb (key y) false) l').
  { intros l'. apply filter_ext. intros y. now destruct (key y). }
  assert (E2 : forall l', filter key l'
                          = filter (fun y => Bool.eqb (key y) true) l').
  { intros l'. apply filter_ext. intros y. now destruct (key y). }
  induction l as [|x l IH]; simpl; [reflexivity|].
  rewrite IH. destruct (key x) eqn:Hx; simpl.
  - rewrite E1, E2. apply insert_sorted_high; auto using Forall_filter_key.
  - now apply insert_sorted_low.
Qed.

Lemma sorted_Permutation (l : list A) : Permutation (sorted key l) l.
Proof.
  rewrite sorted_partition.
  induction l as [|x l IH]; simpl; [constructor|].
  destruct (key x); simpl.
  - symmetry. apply Permutation_cons_app. now symmetry.
  - now constructor.
Qed.

Lemma sorted_length (l : list A) : length (sorted key l) = length l.
Proof. apply Permutation_length, sorted_Permutation. Qed.

End SortedFacts.

(** ** Comparisons *)

Lemma Qgtb_true_iff (x y : Q) : Qgtb x y = true <-> (y < x)%Q.
Proof.
  unfold Qgtb. rewrite negb_true_iff, <- not_true_iff_false, Qle_bool_iff.
  split; [apply Qnot_le_lt | apply Qlt_not_le].
Qed.

Lemma Qgtb_false_iff (x y : Q) : Qgtb x y = false <-> (x <= y)%Q.
Proof. unfold Qgtb. now rewrite negb_false_iff, Qle_bool_iff. Qed.

Lemma Qltb_true_iff (x y : Q) : Qltb x y = true <-> (x < y)%Q.
Proof. unfold Qltb. apply (Qgtb_true_iff y x). Qed.

Lemma Qltb_false_iff (x y : Q) : Qltb x y = false <-> (y <= x)%Q.
Proof. unfold Qltb. apply (Qgtb_false_iff y x). Qed.

(** ** The rewired table *)

Lemma lookup_map {V W} (f : V -> W) (k : Key) (d : list (Key * V)) :
  lookup k (map (fun kv => (fst kv, f (snd kv))) d) = option_map f (lookup k d).
Proof.
  induction d as [|[k' v] d IH]; simpl; [reflexivity|].
  now destruct (key_eqb k k').
Qed.

Lemma lookup_get_transitions (m : NFACAModel) (k : Key) :
  lookup k (get_transitions m)
  = option_map (candidates (chaos_bias m) (disable_chaotic m))
      (lookup k BASE_TRANSITIONS).
Proof. apply lookup_map. Qed.

Lemma reorder_high (cb : Q) (states : list string) :
  (7#10 < cb)%Q ->
  reorder cb states = filter is_chaotic states ++ filter not_chaotic states.
Proof.
  intros H. unfold reorder. apply Qgtb_true_iff in H. rewrite H.
  rewrite sorted_partition. f_equal.
  apply filter_ext. intros s. apply negb_involutive.
Qed.

Lemma reorder_low (cb : Q) (states : list string) :
  (cb < 3#10)%Q ->
  reorder cb states = filter not_chaotic states ++ filter is_chaotic states.
Proof.
  intros H. unfold reorder.
  assert (H7 : Qgtb cb (7#10) = false).
  { apply Qgtb_false_iff. apply Qlt_le_weak. eapply Qlt_trans; [exact H|].
    reflexivity. }
  apply Qltb_true_iff in H. rewrite H7, H.
  now rewrite sorted_partition.
Qed.

Lemma reorder_middle (cb : Q) (states : list string) :
  (3#10 <= cb)%Q -> (cb <= 7#10)%Q -> reorder cb states = states.
Proof.
  intros H3 H7. unfold reorder.
  apply Qgtb_false_iff in H7. apply Qltb_false_iff in H3.
  now rewrite H7, H3.
Qed.

Lemma filter_filter_same {A} (f : A -> bool) (l : list A) :
  filter f (filter f l) = filter f l.
Proof.
  induction l as [|x l IH]; simpl; [reflexivity|].
  destruct (f x) eqn:E; simpl; [rewrite E|]; now rewrite ?IH.
Qed.

Lemma filter_filter_neg {A} (f g : A -> bool) (l : list A) :
  (forall x, g x = negb (f x)) -> filter f (filter g l) = [].
Proof.
  intros Hg. induction l as [|x l IH]; simpl; [reflexivity|].
  rewrite Hg. destruct (f x) eqn:E; simpl; [|rewrite E]; exact IH.
Qed.

(** Whatever the bias, the Chaotic candidates keep their relative order and
    so do the others. *)
Lemma reorder_stable (cb : Q) (states : list string) :
  filter is_chaotic (reorder cb states) = filter is_chaotic states /\
  filter not_chaotic (reorder cb states) = filter not_chaotic states.
Proof.
  assert (N1 : forall l, filter is_chaotic (filter not_chaotic l) = []).
  { intros l. now apply filter_filter_neg. }
  assert (N2 : forall l, filter not_chaotic (filter is_chaotic l) = []).
  { intros l. apply filter_filter_neg. intros x. unfold not_chaotic, is_chaotic.
    now rewrite negb_involutive. }
  destruct (Qlt_le_dec (7#10) cb) as [Hhi|Hhi].
  - rewrite (reorder_high _ _ Hhi), !filter_app, !filter_filter_same, N1, N2.
    now rewrite app_nil_r.
  - destruct (Qlt_le_dec cb (3#10)) as [Hlo|Hlo].
    + rewrite (reorder_low _ _ Hlo), !filter_app, !filter_filter_same, N1, N2.
      now rewrite app_nil_r.
    + now rewrite (reorder_middle _ _ Hlo Hhi).
Qed.

Lemma reorder_Permutation (cb : Q) (states : list string) :
  Permutation (reorder cb states) states.
Proof.
  unfold reorder. destruct (Qgtb cb (7#10)); [apply sorted_Permutation|].
  destruct (Qltb cb (3#10)); [apply sorted_Permutation|reflexivity].
Qed.

(** C4. For every entry of the base table the rewired table holds the pruned
    reordering of the base list, and the reordering, before pruning, is:
    for [chaos_bias > 0.7] the base list with its Chaotic candidates first;
    for [chaos_bias < 0.3] the base list with its Chaotic candidates last;
    for [0.3 <= chaos_bias <= 0.7], the bounds 0.3 and 0.7 included, the base
    list itself.  In every case candidates with the same sort key keep their
    base order. *)
Theorem reorder_by_bias (m : NFACAModel) (k : Key) (states : list string) :
  lookup k BASE_TRANSITIONS = Some states ->
  lookup k (get_transitions m)
  = Some (prune (disable_chaotic m) (reorder (chaos_bias m) states)) /\
  ((7#10 < chaos_bias m)%Q ->
   reorder (chaos_bias m) states
   = filter is_chaotic states ++ filter not_chaotic states) /\
  ((chaos_bias m < 3#10)%Q ->
   reorder (chaos_bias m) states
   = filter not_chaotic states ++ filter is_chaotic states) /\
  ((3#10 <= chaos_bias m)%Q -> (chaos_bias m <= 7#10)%Q ->
   reorder (chaos_bias m) states = states) /\
  reorder (3#10) states = states /\
  reorder (7#10) states = states /\
  filter is_chaotic (reorder (chaos_bias m) states) = filter is_chaotic states /\
  filter not_chaotic (reorder (chaos_bias m) states)
  = filter not_chaotic states.
Proof.
  intros Hk. split.
  { rewrite lookup_get_transitions, Hk. reflexivity. }
  split; [apply reorder_high|].
  split; [apply reorder_low|].
  split; [apply reorder_middle|].
  split; [reflexivity|].
  split; [reflexivity|].
  apply reorder_stable.
Qed.

Lemma reorder_by_bias_witness :
  lookup ("Alive", "M") BASE_TRANSITIONS = Some ["Dying"; "Chaotic"] /\
  reorder (8#10) ["Dying"; "Chaotic"] = ["Chaotic"; "Dying"].
Proof.
  split; [reflexivity|].
  apply (reorder_by_bias (example_model (8#10) 0) ("Alive", "M")
           ["Dying"; "Chaotic"]); reflexivity.
Defined.

(** *** Facts about the twelve base entries *)

Lemma valid_stateb_iff (s : string) : valid_stateb s = true <-> valid_state s.
Proof.
  unfold valid_stateb, valid_state.
  rewrite !orb_true_iff, !String.eqb_eq. tauto.
Qed.

Lemma not_chaotic_iff (s : string) : not_chaotic s = true <-> s <> "Chaotic".
Proof.
  unfold not_chaotic. rewrite negb_true_iff. apply String.eqb_neq.
Qed.

Lemma lookup_In_values {V} (k : Key) (d : list (Key * V)) (v : V) :
  lookup k d = Some v -> In v (map snd d).
Proof.
  induction d as [|[k' v'] d IH]; simpl; [discriminate|].
  destruct (key_eqb k k'); [intros [= ->]; now left | right; auto].
Qed.

Lemma key_eqb_eq (k1 k2 : Key) : key_eqb k1 k2 = true <-> k1 = k2.
Proof.
  destruct k1 as [a b], k2 as [c d]. unfold key_eqb; simpl.
  rewrite andb_true_iff, !String.eqb_eq. split; [intros [-> ->]|intros [= -> ->]]; auto.
Qed.

Lemma lookup_In {V} (k : Key) (d : list (Key * V)) (v : V) :
  lookup k d = Some v -> In (k, v) d.
Proof.
  induction d as [|[k' v'] d IH]; simpl; [discriminate|].
  destruct (key_eqb k k') eqn:E.
  - apply key_eqb_eq in E. intros [= ->]. left. now subst.
  - right; auto.
Qed.

Ltac base_cases H :=
  apply lookup_In_values in H; simpl in H;
  repeat (destruct H as [H|H]; [subst|]); [..|contradiction].

Ltac bias_cases cb d :=
  unfold candidates, reorder, prune;
  destruct (Qgtb cb (7#10)); [|destruct (Qltb cb (3#10))];
  destruct (truthy d).

Lemma base_entry_shape (k : Key) (states : list string) :
  lookup k BASE_TRANSITIONS = Some states ->
  length states = 2%nat /\ count_where is_chaotic states <= 1 /\
  Forall valid_state states.
Proof.
  intros H. base_cases H;
    (split; [reflexivity|split; [vm_compute; discriminate|]]);
    repeat (apply Forall_cons; [apply valid_stateb_iff; reflexivity|]);
    apply Forall_nil.
Qed.

Lemma base_candidates_good (cb : Q) (d : Z) (k : Key) (states : list string) :
  lookup k BASE_TRANSITIONS = Some states ->
  good_candidates (truthy d) (candidates cb d states) = true.
Proof.
  intros H. base_cases H; bias_cases cb d; reflexivity.
Qed.

Lemma table_candidates_good (m : NFACAModel) (k : Key) (l : list string) :
  lookup k (get_transitions m) = Some l ->
  good_candidates (truthy (disable_chaotic m)) l = true.
Proof.
  rewrite lookup_get_transitions.
  destruct (lookup k BASE_TRANSITIONS) as [states|] eqn:E; [|discriminate].
  intros [= <-]. now apply base_candidates_good with (k := k).
Qed.

Lemma good_candidates_length (dis : bool) (l : list string) :
  good_candidates dis l = true -> length l = 1%nat \/ length l = 2%nat.
Proof.
  unfold good_candidates. rewrite !andb_true_iff, orb_true_iff, !Nat.eqb_eq.
  tauto.
Qed.

Lemma good_candidates_valid (dis : bool) (l : list string) :
  good_candidates dis l = true -> Forall valid_state l.
Proof.
  unfold good_candidates. rewrite !andb_true_iff, forallb_forall.
  intros [[_ H] _]. apply Forall_forall. intros s Hs.
  now apply valid_stateb_iff, H.
Qed.

Lemma good_candidates_not_chaotic (l : list string) :
  good_candidates true l = true -> Forall (fun s => s <> "Chaotic") l.
Proof.
  unfold good_candidates. rewrite !andb_true_iff. simpl.
  intros [_ H]. rewrite forallb_forall in H. apply Forall_forall. intros s Hs.
  now apply not_chaotic_iff, H.
Qed.

(** All twelve keys are present, whatever the parameters. *)
Lemma table_total (m : NFACAModel) (st sym : string) :
  valid_state st -> valid_symbol sym ->
  exists l, lookup (st, sym) (get_transitions m) = Some l.
Proof.
  intros Hst Hsym. rewrite lookup_get_transitions.
  destruct Hst as [-> | [-> | [-> | ->]]];
    destruct Hsym as [-> | [-> | ->]];
    simpl; eexists; reflexivity.
Qed.

(** ** Resolution of the nondeterministic choice *)

Lemma total_weight_positive (p : Q) : Qle_bool (p + (1 - p)) 0 = false.
Proof.
  apply not_true_iff_false. rewrite Qle_bool_iff. intros H.
  assert (E : (p + (1 - p) == 1)%Q) by ring.
  rewrite E in H. now apply H.
Qed.

Lemma scaled_draw (r p : Q) : Qltb (r * (p + (1 - p))) p = Qltb r p.
Proof.
  unfold Qltb. f_equal. apply Qleb_comp; [reflexivity|ring].
Qed.

Section Resolve.
Variable draws : nat -> Q.

Lemma resolve_one (p : Q) (c : string) (s : nat) :
  resolve draws p [c] s = Ok (c, s).
Proof. reflexivity. Qed.

Lemma resolve_two (p : Q) (c0 c1 : string) (s : nat) :
  resolve draws p [c0; c1] s
  = Ok (if Qltb (draws s) p then c0 else c1, S s).
Proof.
  unfold resolve, choices, bind, random, ret. simpl.
  rewrite total_weight_positive. unfold bisect. simpl.
  rewrite scaled_draw. now destruct (Qltb (draws s) p).
Qed.

(** With one or two candidates the resolution returns one of them. *)
Lemma resolve_total (p : Q) (l : list string) (s : nat) :
  length l = 1%nat \/ length l = 2%nat ->
  exists c s', resolve draws p l s = Ok (c, s') /\ In c l /\
               (s' = s \/ s' = S s).
Proof.
  intros [H|H].
  - destruct l as [|c [|? ?]]; try discriminate.
    exists c, s. rewrite resolve_one. simpl; auto.
  - destruct l as [|c0 [|c1 [|? ?]]]; try discriminate.
    eexists _, (S s). rewrite resolve_two. split; [reflexivity|].
    split; [|now right]. destruct (Qltb (draws s) p); simpl; auto.
Qed.

End Resolve.

(** ** Frequencies over equally likely draws *)

Lemma count_where_app {A} (f : A -> bool) (l1 l2 : list A) :
  count_where f (l1 ++ l2) = count_where f l1 + count_where f l2.
Proof.
  unfold count_where. rewrite filter_app, map_app.
  induction (map (fun _ : A => 1) (filter f l1)) as [|x l IH]; simpl; lia.
Qed.

Lemma count_where_cons {A} (f : A -> bool) (x : A) (l : list A) :
  count_where f (x :: l) = (if f x then 1 else 0) + count_where f l.
Proof. unfold count_where. simpl. now destruct (f x). Qed.

Lemma count_where_map {A B} (f : B -> bool) (g : A -> B) (l : list A) :
  count_where f (map g l) = count_where (fun x => f (g x)) l.
Proof.
  induction l as [|x l IH]; [reflexivity|].
  simpl map. now rewrite !count_where_cons, IH.
Qed.

Lemma count_where_ext_in {A} (f g : A -> bool) (l : list A) :
  (forall x, In x l -> f x = g x) -> count_where f l = count_where g l.
Proof.
  intros H. unfold count_where. now rewrite (filter_ext_in f g l H).
Qed.

Lemma count_where_le {A} (f g : A -> bool) (l : list A) :
  (forall x, In x l -> f x = true -> g x = true) ->
  count_where f l <= count_where g l.
Proof.
  induction l as [|x l IH]; intros H; [reflexivity|].
  rewrite !count_where_cons.
  assert (IH' : count_where f l <= count_where g l).
  { apply IH. intros y Hy. apply H. now right. }
  destruct (f x) eqn:E.
  - rewrite (H x (or_introl eq_refl) E). lia.
  - destruct (g x); lia.
Qed.

Lemma count_where_negb {A} (f : A -> bool) (l : list A) :
  count_where (fun x => negb (f x)) l = Z.of_nat (length l) - count_where f l.
Proof.
  induction l as [|x l IH]; [reflexivity|].
  rewrite !count_where_cons, IH. cbn [length]. rewrite Nat2Z.inj_succ.
  destruct (f x); cbn [negb]; lia.
Qed.

Lemma count_where_nonneg {A} (f : A -> bool) (l : list A) :
  0 <= count_where f l.
Proof.
  induction l as [|x l IH]; [reflexivity|].
  rewrite count_where_cons. destruct (f x); lia.
Qed.

(** Among [0, ..., N-1] exactly [min m N] numbers are below [m]. *)
Lemma count_below (m N : nat) :
  count_where (fun k => (k <? m)%nat) (seq 0 N) = Z.of_nat (Nat.min m N).
Proof.
  induction N as [|N IH]; [now rewrite Nat.min_0_r|].
  rewrite seq_S, count_where_app, IH, count_where_cons. simpl.
  destruct (N <? m)%nat eqn:E.
  - apply Nat.ltb_lt in E. unfold count_where. simpl. lia.
  - apply Nat.ltb_ge in E. unfold count_where. simpl. lia.
Qed.

Lemma Qltb_same_den (a b : Z) (d : positive) :
  Qltb (a # d) (b # d) = (a <? b).
Proof.
  unfold Qltb, Qle_bool. simpl. rewrite Z.ltb_antisym. f_equal.
  destruct (Z.leb_spec (b * Z.pos d) (a * Z.pos d)) as [H|H];
    symmetry; [apply Z.leb_le|apply Z.leb_gt]; nia.
Qed.

Lemma Qltb_proper (x x' y y' : Q) :
  (x == x')%Q -> (y == y')%Q -> Qltb x y = Qltb x' y'.
Proof. intros Hx Hy. unfold Qltb. f_equal. now apply Qleb_comp. Qed.

(** A threshold [m/N] is passed by exactly [m] of the [N] draws. *)
Lemma draws_below_threshold (p : Q) (m N : nat) :
  (m <= N)%nat -> (p == Z.of_nat m # Pos.of_nat N)%Q ->
  count_where (fun r => Qltb r p) (uniform_draws N) = Z.of_nat m.
Proof.
  intros Hm Hp. unfold uniform_draws. rewrite count_where_map.
  rewrite (count_where_ext_in _ (fun k => (k <? m)%nat)).
  - rewrite count_below. f_equal. lia.
  - intros k _. rewrite (Qltb_proper _ _ _ _ (Qeq_refl _) Hp), Qltb_same_den.
    destruct (Nat.ltb_spec k m); [apply Z.ltb_lt|apply Z.ltb_ge]; lia.
Qed.

Lemma length_uniform_draws (N : nat) : length (uniform_draws N) = N.
Proof. unfold uniform_draws. now rewrite length_map, length_seq. Qed.

Lemma selects_first (p : Q) (c0 c1 : string) (r : Q) :
  c0 <> c1 -> selects p [c0; c1] c0 r = Qltb r p.
Proof.
  intros Hc. unfold selects, selected. rewrite resolve_two.
  destruct (Qltb r p); [apply String.eqb_refl|].
  apply String.eqb_neq. congruence.
Qed.

Lemma selects_second (p : Q) (c0 c1 : string) (r : Q) :
  c0 <> c1 -> selects p [c0; c1] c1 r = negb (Qltb r p).
Proof.
  intros Hc. unfold selects, selected. rewrite resolve_two.
  destruct (Qltb r p); [now apply String.eqb_neq|apply String.eqb_refl].
Qed.

(** C3. With one candidate the next state is that candidate and no draw is
    made.  With two candidates [c0], [c1] one draw [r] is made and [c0] is
    chosen exactly when [r < branch_prob]: for [branch_prob = m/N] that is
    [m] of the [N] equally likely draws (frequency [branch_prob]) for [c0]
    and the other [N - m] (frequency [1 - branch_prob]) for [c1].  With
    [branch_prob = 1] every draw of [[0,1)] chooses [c0]; with
    [branch_prob = 0] every draw chooses [c1]. *)
Theorem resolution_of_choice (draws : nat -> Q) (p : Q) (c0 c1 : string)
  (s : nat) :
  resolve draws p [c0] s = Ok (c0, s) /\
  resolve draws p [c0; c1] s = Ok (if Qltb (draws s) p then c0 else c1, S s) /\
  (forall m N : nat,
      c0 <> c1 -> (m <= N)%nat -> (p == Z.of_nat m # Pos.of_nat N)%Q ->
      count_where (selects p [c0; c1] c0) (uniform_draws N) = Z.of_nat m /\
      count_where (selects p [c0; c1] c1) (uniform_draws N)
      = Z.of_nat N - Z.of_nat m) /\
  ((p == 1)%Q -> (draws s < 1)%Q -> resolve draws p [c0; c1] s = Ok (c0, S s)) /\
  ((p == 0)%Q -> (0 <= draws s)%Q -> resolve draws p [c0; c1] s = Ok (c1, S s)).
Proof.
  split; [apply resolve_one|].
  split; [apply resolve_two|].
  split; [|split].
  - intros m N Hc Hm Hp. split.
    + rewrite (count_where_ext_in _ (fun r => Qltb r p)).
      * now apply draws_below_threshold.
      * intros r _. now apply selects_first.
    + rewrite (count_where_ext_in _ (fun r => negb (Qltb r p))).
      * rewrite count_where_negb, length_uniform_draws.
        now rewrite draws_below_threshold with (m := m).
      * intros r _. now apply selects_second.
  - intros Hp Hr. rewrite resolve_two.
    assert (E : Qltb (draws s) p = true).
    { apply Qltb_true_iff. now rewrite Hp. }
    now rewrite E.
  - intros Hp Hr. rewrite resolve_two.
    assert (E : Qltb (draws s) p = false).
    { apply Qltb_false_iff. now rewrite Hp. }
    now rewrite E.
Qed.

Lemma resolution_of_choice_witness :
  ("Dying" <> "Chaotic" /\ (3 <= 4)%nat /\ (3 # 4 == Z.of_nat 3 # Pos.of_nat 4)%Q) /\
  count_where (selects (3 # 4) ["Dying"; "Chaotic"] "Dying") (uniform_draws 4)
  = 3.
Proof.
  split; [repeat split; [discriminate|lia]|].
  destruct (resolution_of_choice (fun _ => 1 # 2) (3 # 4) "Dying" "Chaotic" 0%nat)
    as (_ & _ & H & _).
  apply (H 3%nat 4%nat); [discriminate|lia|reflexivity].
Defined.

(** ** Non-emptiness and size of the candidate lists *)

Lemma good_candidates_nonempty (dis : bool) (l : list string) :
  good_candidates dis l = true -> l <> [].
Proof.
  intros H ->. apply good_candidates_length in H. simpl in H. lia.
Qed.

Lemma prune_truthy_nonempty (d : Z) (l : list string) :
  truthy d = true -> prune d l <> [].
Proof.
  intros H. unfold prune. rewrite H.
  destruct (filter _ l); discriminate.
Qed.

Lemma prune_fallback (d : Z) (l : list string) :
  truthy d = true -> filter not_chaotic l = [] -> prune d l = ["Stable"].
Proof.
  intros H E. unfold prune. rewrite H.
  change (fun s => negb (s =? "Chaotic")%string) with not_chaotic.
  now rewrite E.
Qed.

(** C5. Every list of the rewired table is non-empty, for every entry of the
    base table and every [chaos_bias] and [disable_chaotic]; and when the
    removal of Chaotic leaves nothing, the list stored is [["Stable"]]. *)
Theorem candidates_nonempty (m : NFACAModel) :
  (forall k states, lookup k BASE_TRANSITIONS = Some states ->
     exists l, lookup k (get_transitions m) = Some l /\
               l = candidates (chaos_bias m) (disable_chaotic m) states /\
               l <> []) /\
  (forall k l, lookup k (get_transitions m) = Some l -> l <> []) /\
  (forall states, truthy (disable_chaotic m) = true ->
     candidates (chaos_bias m) (disable_chaotic m) states <> [] /\
     (filter not_chaotic (reorder (chaos_bias m) states) = [] ->
      candidates (chaos_bias m) (disable_chaotic m) states = ["Stable"])).
Proof.
  split; [|split].
  - intros k states Hk. eexists. rewrite lookup_get_transitions, Hk.
    split; [reflexivity|]. split; [reflexivity|].
    eapply good_candidates_nonempty, base_candidates_good, Hk.
  - intros k l Hk. eapply good_candidates_nonempty, table_candidates_good, Hk.
  - intros states Hd. split.
    + now apply prune_truthy_nonempty.
    + now apply prune_fallback.
Qed.

Lemma candidates_nonempty_witness :
  (lookup ("Alive", "H") (get_transitions (example_model (1#2) 1))
   = Some ["Dying"] /\ ["Dying"] <> []) /\
  (truthy (disable_chaotic (example_model (1#2) 1)) = true /\
   filter not_chaotic (reorder (1#2) ["Chaotic"]) = [] /\
   candidates (1#2) 1 ["Chaotic"] = ["Stable"]).
Proof.
  destruct (candidates_nonempty (example_model (1#2) 1)) as (_ & H2 & H3).
  split.
  - split; [reflexivity|]. apply (H2 ("Alive", "H")). reflexivity.
  - split; [reflexivity|]. split; [reflexivity|].
    apply (H3 ["Chaotic"]); reflexivity.
Defined.

(** C10. Every list of the rewired table comes from a base list of exactly
    two candidates, at most one of them Chaotic; reordering keeps the length
    and pruning leaves one or two candidates.  So when agent.py takes the
    probabilistic branch the list has two candidates, as many as the weights
    [[branch_prob, 1 - branch_prob]], and the resolution returns one of the
    candidates without raising. *)
Theorem candidate_lists_one_or_two (draws : nat -> Q) (m : NFACAModel)
  (k : Key) (l : list string) (s : nat) :
  lookup k (get_transitions m) = Some l ->
  (exists states,
      lookup k BASE_TRANSITIONS = Some states /\
      length states = 2%nat /\ count_where is_chaotic states <= 1 /\
      length (reorder (chaos_bias m) states) = length states /\
      l = prune (disable_chaotic m) (reorder (chaos_bias m) states)) /\
  (length l = 1%nat \/ length l = 2%nat) /\
  ((length l =? 1)%nat = false ->
   length l = length [branch_prob m; (1 - branch_prob m)%Q]) /\
  exists c s', resolve draws (branch_prob m) l s = Ok (c, s') /\ In c l.
Proof.
  intros Hk.
  pose proof (table_candidates_good _ _ _ Hk) as Hgood.
  pose proof (good_candidates_length _ _ Hgood) as Hlen.
  split; [|split; [exact Hlen|split]].
  - rewrite lookup_get_transitions in Hk.
    destruct (lookup k BASE_TRANSITIONS) as [states|] eqn:E; [|discriminate].
    injection Hk as <-. exists states.
    destruct (base_entry_shape _ _ E) as (H2 & H1 & _).
    repeat split; auto.
    apply Permutation_length, reorder_Permutation.
  - intros H1. apply Nat.eqb_neq in H1. simpl. lia.
  - destruct (resolve_total draws (branch_prob m) l s Hlen) as (c & s' & H & Hin & _).
    now exists c, s'.
Qed.

Lemma candidate_lists_one_or_two_witness :
  lookup ("Stable", "H") (get_transitions (example_model (1#2) 0))
  = Some ["Chaotic"; "Stable"] /\
  (length ["Chaotic"; "Stable"] = 1%nat \/ length ["Chaotic"; "Stable"] = 2%nat).
Proof.
  split; [reflexivity|].
  apply (candidate_lists_one_or_two (fun _ => 1#2) (example_model (1#2) 0)
           ("Stable", "H") ["Chaotic"; "Stable"] 0%nat).
  reflexivity.
Defined.

(** ** One cell's transition *)

Lemma input_symbol_valid (n : Z) : valid_symbol (input_symbol_of n).
Proof.
  unfold input_symbol_of, valid_symbol.
  destruct (n <=? 2); [|destruct (n <=? 4)]; auto.
Qed.

Lemma override_valid (d : Z) (c : string) :
  valid_state c -> valid_state (override d c).
Proof.
  intros H. unfold override.
  destruct (_ && _); [unfold valid_state; auto|exact H].
Qed.

Lemma override_not_chaotic (c : string) : override 1 c <> "Chaotic".
Proof.
  unfold override. simpl. destruct (c =? "Chaotic")%string eqn:E.
  - discriminate.
  - now apply String.eqb_neq.
Qed.

Lemma override_keeps (d : Z) (c : string) :
  c <> "Chaotic" -> override d c = c.
Proof.
  intros H. unfold override. apply String.eqb_neq in H. rewrite H.
  now rewrite andb_false_r.
Qed.

Section Cell.
Variable draws : nat -> Q.

Lemma agent_step_computeNext (m : NFACAModel) (a : NFACellAgent) (s : nat) :
  agent_step draws m a s
  = (next <- computeNext draws (branch_prob m) (chaos_bias m)
               (disable_chaotic m) (state a)
               (map state (get_neighbors m (pos a))) ;;
     ret (set_next_state a next)) s.
Proof.
  unfold agent_step, computeNext, transition, alive_neighbors_of.
  rewrite count_where_map. fold (get_transitions m).
  unfold bind.
  destruct (lookup _ (get_transitions m)) as [l|]; [|reflexivity].
  destruct (resolve draws (branch_prob m) l s) as [[c s1]|]; reflexivity.
Qed.

(** The outcome of a successful transition: one of the states of the
    automaton, never Chaotic when Chaotic is disabled, at most one draw
    consumed. *)
Lemma computeNext_result (bp cb : Q) (d : Z) (own : string)
  (ns : list string) (s s' : nat) (next : string) :
  computeNext draws bp cb d own ns s = Ok (next, s') ->
  valid_state next /\ (truthy d = true -> next <> "Chaotic") /\
  (s <= s' <= S s)%nat.
Proof.
  unfold computeNext, transition.
  set (m := mkModel 0 0 bp cb d [] []).
  change (map _ BASE_TRANSITIONS) with (get_transitions m).
  destruct (lookup _ (get_transitions m)) as [l|] eqn:E; [|discriminate].
  pose proof (table_candidates_good _ _ _ E) as Hgood. simpl in Hgood.
  destruct (resolve_total draws bp l s (good_candidates_length _ _ Hgood))
    as (c & s1 & Hr & Hin & Hs).
  unfold bind. rewrite Hr. unfold ret. intros [= <- <-].
  pose proof (good_candidates_valid _ _ Hgood) as Hv.
  rewrite Forall_forall in Hv.
  split; [apply override_valid; auto|]. split; [|lia].
  intros Hd. rewrite Hd in Hgood.
  pose proof (good_candidates_not_chaotic _ Hgood) as Hn.
  rewrite Forall_forall in Hn. rewrite override_keeps; auto.
Qed.

Lemma computeNext_total (bp cb : Q) (d : Z) (own : string)
  (ns : list string) (s : nat) :
  valid_state own ->
  exists next s', computeNext draws bp cb d own ns s = Ok (next, s').
Proof.
  intros Hown. unfold computeNext, transition.
  set (m := mkModel 0 0 bp cb d [] []).
  change (map _ BASE_TRANSITIONS) with (get_transitions m).
  destruct (table_total m own _ Hown (input_symbol_valid
             (count_where (fun s0 => (s0 =? "Alive")%string) ns))) as [l E].
  rewrite E.
  pose proof (table_candidates_good _ _ _ E) as Hgood.
  destruct (resolve_total draws bp l s (good_candidates_length _ _ Hgood))
    as (c & s1 & Hr & _).
  unfold bind. rewrite Hr. eexists _, _. reflexivity.
Qed.

Lemma agent_step_result (m : NFACAModel) (a a' : NFACellAgent) (s s' : nat) :
  agent_step draws m a s = Ok (a', s') ->
  exists next,
    computeNext draws (branch_prob m) (chaos_bias m) (disable_chaotic m)
      (state a) (map state (get_neighbors m (pos a))) s = Ok (next, s') /\
    a' = set_next_state a next.
Proof.
  rewrite agent_step_computeNext. unfold bind.
  destruct (computeNext _ _ _ _ _ _ s) as [[next s1]|]; [|discriminate].
  unfold ret. intros [= <- <-]. now exists next.
Qed.

Lemma agent_step_total (m : NFACAModel) (a : NFACellAgent) (s : nat) :
  valid_state (state a) ->
  exists a' s', agent_step draws m a s = Ok (a', s').
Proof.
  intros H. rewrite agent_step_computeNext. unfold bind.
  destruct (computeNext_total (branch_prob m) (chaos_bias m)
              (disable_chaotic m) (state a)
              (map state (get_neighbors m (pos a))) s H) as (next & s' & E).
  rewrite E. eexists _, _. reflexivity.
Qed.

End Cell.

(** ** The two-phase step *)

Lemma neighbor_states_visible (c : Z * Z) (l : list NFACellAgent) :
  map state (filter (fun a => pos_eqb (pos a) c) l)
  = map snd (filter (fun v => pos_eqb (fst v) c) (map visible l)).
Proof.
  induction l as [|a l IH]; simpl; [reflexivity|].
  destruct (pos_eqb (pos a) c); simpl; now rewrite IH.
Qed.

Lemma map_flat_map {A B C} (f : B -> C) (g : A -> list B) (l : list A) :
  map f (flat_map g l) = flat_map (fun x => map f (g x)) l.
Proof.
  induction l as [|x l IH]; simpl; [reflexivity|].
  now rewrite map_app, IH.
Qed.

(** The neighbour states a cell reads are determined by what is visible of
    the store: positions and current states.  The staged [next_state] slots
    play no part. *)
Lemma neighbor_states_snapshot (m : NFACAModel) (l1 l2 : list NFACellAgent)
  (p : Z * Z) :
  map visible l1 = map visible l2 ->
  map state (get_neighbors (set_agents m l1) p)
  = map state (get_neighbors (set_agents m l2) p).
Proof.
  intros H. unfold get_neighbors. rewrite !map_flat_map.
  change (get_neighborhood (set_agents m l1) p) with (get_neighborhood m p).
  change (get_neighborhood (set_agents m l2) p) with (get_neighborhood m p).
  apply flat_map_ext. intros c. simpl.
  now rewrite !neighbor_states_visible, H.
Qed.

Lemma set_agents_same (m : NFACAModel) : set_agents m (agents m) = m.
Proof. now destruct m. Qed.

Section TwoPhase.
Variable draws : nat -> Q.

Lemma agent_step_snapshot (m : NFACAModel) (l1 l2 : list NFACellAgent)
  (a : NFACellAgent) (s : nat) :
  map visible l1 = map visible l2 ->
  agent_step draws (set_agents m l1) a s
  = agent_step draws (set_agents m l2) a s.
Proof.
  intros H. rewrite !agent_step_computeNext.
  now rewrite (neighbor_states_snapshot m l1 l2 (pos a) H).
Qed.

Lemma agent_step_visible (m : NFACAModel) (a a' : NFACellAgent) (s s' : nat) :
  agent_step draws m a s = Ok (a', s') ->
  unique_id a' = unique_id a /\ visible a' = visible a.
Proof.
  intros H. apply agent_step_result in H. destruct H as (next & _ & ->).
  split; reflexivity.
Qed.

(** The in-place loop computes what the snapshot semantics computes: an
    agent stepping after others sees their staged slots changed, and nothing
    else. *)
Lemma step_agents_snapshot (m0 : NFACAModel) (todo done : list NFACellAgent)
  (s : nat) :
  map visible (done ++ todo) = map visible (agents m0) ->
  step_agents draws m0 done todo s
  = (staged <- snapshot_step draws m0 todo ;; ret (done ++ staged)) s.
Proof.
  revert done s. induction todo as [|a rest IH]; intros done s Hvis.
  - simpl. unfold bind, ret. now rewrite app_nil_r.
  - simpl. unfold bind at 1 2 3.
    rewrite (agent_step_snapshot m0 (done ++ a :: rest) (agents m0) a s Hvis).
    rewrite set_agents_same.
    destruct (agent_step draws m0 a s) as [[a' s1]|] eqn:E; [|reflexivity].
    rewrite IH.
    + unfold bind, ret.
      destruct (snapshot_step draws m0 rest s1) as [[rest' s2]|]; [|reflexivity].
      now rewrite <- app_assoc.
    + apply agent_step_visible in E. destruct E as [_ E].
      rewrite <- Hvis, <- app_assoc, !map_app. simpl. now rewrite E.
Qed.

(** Each agent of the snapshot semantics made its transition from its own
    pre-step state and its neighbours' pre-step states, with counters inside
    the span of the phase. *)
Lemma snapshot_step_spec (m0 : NFACAModel) (todo staged : list NFACellAgent)
  (s s' : nat) :
  snapshot_step draws m0 todo s = Ok (staged, s') ->
  (s <= s')%nat /\
  Forall2 (fun a a' =>
             exists k k' next, (s <= k)%nat /\ (k' <= s')%nat /\
               computeNext draws (branch_prob m0) (chaos_bias m0)
                 (disable_chaotic m0) (state a)
                 (map state (get_neighbors m0 (pos a))) k = Ok (next, k') /\
               a' = set_next_state a next)
          todo staged.
Proof.
  revert staged s s'. induction todo as [|a rest IH]; intros staged s s'.
  - simpl. unfold ret. intros [= <- <-]. split; [lia|constructor].
  - simpl. unfold bind.
    destruct (agent_step draws m0 a s) as [[a' s1]|] eqn:E; [|discriminate].
    destruct (snapshot_step draws m0 rest s1) as [[rest' s2]|] eqn:E';
      [|discriminate].
    unfold ret. intros [= <- <-].
    apply agent_step_result in E. destruct E as (next & E & ->).
    pose proof (computeNext_result _ _ _ _ _ _ _ _ _ E) as (_ & _ & Hs).
    destruct (IH _ _ _ E') as [Hle HF]. split; [lia|].
    constructor.
    + exists s, s1, next. repeat split; auto; lia.
    + eapply Forall2_impl; [|exact HF].
      intros b b' (k & k' & nx & H1 & H2 & H3 & H4).
      exists k, k', nx. repeat split; auto; lia.
Qed.

Lemma snapshot_step_total (m0 : NFACAModel) (todo : list NFACellAgent)
  (s : nat) :
  Forall (fun a => valid_state (state a)) todo ->
  exists staged s', snapshot_step draws m0 todo s = Ok (staged, s').
Proof.
  intros H. revert s. induction H as [|a rest Ha _ IH]; intros s.
  - eexists _, _. reflexivity.
  - simpl. unfold bind.
    destruct (agent_step_total draws m0 a s Ha) as (a' & s1 & E). rewrite E.
    destruct (IH s1) as (rest' & s2 & E'). rewrite E'.
    eexists _, _. reflexivity.
Qed.

Lemma schedule_step_snapshot (m : NFACAModel) (s : nat) :
  schedule_step draws m s
  = (staged <- snapshot_step draws m (agents m) ;;
     ret (set_agents m (map advance staged))) s.
Proof.
  unfold schedule_step, bind at 1. rewrite step_agents_snapshot; [|reflexivity].
  unfold bind, ret.
  destruct (snapshot_step draws m (agents m) s) as [[staged s']|]; reflexivity.
Qed.

End TwoPhase.

(** ** Construction *)

Section Construction.
Variable draws : nat -> Q.

Lemma inner_loop {A} (g : Z -> Q -> A) (ys : list Z) (acc : list A) (s : nat) :
  for_each ys (fun acc y => r <- random draws ;; ret (acc ++ [g y r])) acc s
  = Ok (acc ++ draw_row draws g ys s, (s + length ys)%nat).
Proof.
  revert acc s. induction ys as [|y ys IH]; intros acc s; simpl.
  - unfold ret. now rewrite app_nil_r, Nat.add_0_r.
  - unfold bind at 1. unfold bind at 1. unfold random, ret at 1.
    rewrite IH, <- app_assoc. simpl. do 2 f_equal. lia.
Qed.

Lemma outer_loop {A} (g : Z -> Z -> Q -> A) (xs ys : list Z) (acc : list A)
  (s : nat) :
  for_each xs (fun acc x =>
    for_each ys (fun acc y => r <- random draws ;; ret (acc ++ [g x y r])) acc)
    acc s
  = Ok (acc ++ draw_rows draws g xs ys s, (s + length xs * length ys)%nat).
Proof.
  revert acc s. induction xs as [|x xs IH]; intros acc s; simpl.
  - unfold ret. now rewrite app_nil_r, Nat.add_0_r.
  - unfold bind at 1. rewrite (inner_loop (g x)), IH, <- app_assoc.
    do 2 f_equal. lia.
Qed.

(** The constructor returns, for every argument: it draws once per cell and
    fills the 20x20 grid. *)
Lemma model_init_eq (ia bp cb : Q) (d : Z) (s : nat) :
  model_init draws ia bp cb d s
  = Ok (mkModel 20 20 bp cb d
          (draw_rows draws (new_agent ia) (range 20) (range 20) s)
          (map (fun label => (label, [])) reporters),
        (s + 400)%nat).
Proof.
  pose proof (outer_loop (new_agent ia) (range 20) (range 20) [] s) as H.
  unfold new_agent in H. cbv zeta in H.
  unfold model_init. cbv zeta. unfold bind at 1. rewrite H. reflexivity.
Qed.

Lemma draw_row_Forall {A} (P : A -> Prop) (g : Z -> Q -> A) (ys : list Z)
  (s : nat) :
  (forall y r, P (g y r)) -> Forall P (draw_row draws g ys s).
Proof.
  intros H. revert s. induction ys as [|y ys IH]; intros s; simpl;
    constructor; auto.
Qed.

Lemma draw_rows_Forall {A} (P : A -> Prop) (g : Z -> Z -> Q -> A)
  (xs ys : list Z) (s : nat) :
  (forall x y r, P (g x y r)) -> Forall P (draw_rows draws g xs ys s).
Proof.
  intros H. revert s. induction xs as [|x xs IH]; intros s; simpl.
  - constructor.
  - apply Forall_app. split; [now apply draw_row_Forall|apply IH].
Qed.

Lemma draw_row_map {A B} (f : A -> B) (h : Z -> B) (g : Z -> Q -> A)
  (ys : list Z) (s : nat) :
  (forall y r, f (g y r) = h y) ->
  map f (draw_row draws g ys s) = map h ys.
Proof.
  intros H. revert s. induction ys as [|y ys IH]; intros s; simpl;
    [reflexivity|]. now rewrite H, IH.
Qed.

Lemma draw_rows_map {A B} (f : A -> B) (h : Z -> Z -> B)
  (g : Z -> Z -> Q -> A) (xs ys : list Z) (s : nat) :
  (forall x y r, f (g x y r) = h x y) ->
  map f (draw_rows draws g xs ys s) = flat_map (fun x => map (h x) ys) xs.
Proof.
  intros H. revert s. induction xs as [|x xs IH]; intros s; simpl;
    [reflexivity|].
  rewrite map_app, IH. f_equal. now apply draw_row_map.
Qed.

Lemma model_init_positions (ia : Q) (s : nat) :
  map pos (draw_rows draws (new_agent ia) (range 20) (range 20) s)
  = grid_positions 20 20.
Proof. now apply draw_rows_map. Qed.

Lemma model_init_length (ia : Q) (s : nat) :
  length (draw_rows draws (new_agent ia) (range 20) (range 20) s) = 400%nat.
Proof.
  rewrite <- (length_map pos), model_init_positions. reflexivity.
Qed.

Lemma new_agent_state (ia : Q) (x y : Z) (r : Q) :
  state (new_agent ia x y r) = "Alive" \/ state (new_agent ia x y r) = "Stable".
Proof. unfold new_agent. simpl. destruct (Qltb r ia); auto. Qed.

End Construction.

(** ** The model step *)

Lemma Forall2_right {A B} (R : A -> B -> Prop) (P : B -> Prop)
  (l : list A) (l' : list B) :
  (forall a b, R a b -> P b) -> Forall2 R l l' -> Forall P l'.
Proof. intros H HF. induction HF; constructor; eauto. Qed.

Lemma Forall2_map_r {A B C} (R : A -> C -> Prop) (f : B -> C)
  (l : list A) (l' : list B) :
  Forall2 (fun a b => R a (f b)) l l' -> Forall2 R l (map f l').
Proof. intros HF. induction HF; simpl; constructor; auto. Qed.

Lemma Forall2_map_eq {A B C} (f : A -> C) (g : B -> C)
  (l : list A) (l' : list B) :
  Forall2 (fun a b => g b = f a) l l' -> map g l' = map f l.
Proof. intros HF. induction HF; simpl; congruence. Qed.

Section ModelStep.
Variable draws : nat -> Q.

Lemma schedule_step_result (m m' : NFACAModel) (s s' : nat) :
  schedule_step draws m s = Ok (m', s') ->
  exists staged,
    step_agents draws m [] (agents m) s = Ok (staged, s') /\
    snapshot_step draws m (agents m) s = Ok (staged, s') /\
    m' = set_agents m (map advance staged).
Proof.
  intros H. pose proof H as H'. rewrite schedule_step_snapshot in H'.
  unfold bind in H'.
  destruct (snapshot_step draws m (agents m) s) as [[staged s1]|] eqn:E;
    [|discriminate].
  unfold ret in H'. injection H' as <- <-. exists staged.
  split; [|split; reflexivity].
  rewrite step_agents_snapshot; [|reflexivity].
  unfold bind. now rewrite E.
Qed.

Lemma schedule_step_cells (m m' : NFACAModel) (s s' : nat) :
  schedule_step draws m s = Ok (m', s') ->
  Forall2 (next_from_snapshot draws m s s') (agents m) (agents m').
Proof.
  intros H. apply schedule_step_result in H.
  destruct H as (staged & _ & H & ->). simpl.
  apply snapshot_step_spec in H. destruct H as [_ H].
  apply Forall2_map_r. eapply Forall2_impl; [|exact H].
  intros a a' (k & k' & next & H1 & H2 & H3 & ->).
  repeat split. now exists k, k'.
Qed.

Lemma schedule_step_total (m : NFACAModel) (s : nat) :
  Forall (fun a => valid_state (state a)) (agents m) ->
  exists m' s', schedule_step draws m s = Ok (m', s').
Proof.
  intros H. rewrite schedule_step_snapshot. unfold bind.
  destruct (snapshot_step_total draws m (agents m) s H) as (staged & s' & E).
  rewrite E. eexists _, _. reflexivity.
Qed.

Lemma model_step_result (m m' : NFACAModel) (s s' : nat) :
  model_step draws m s = Ok (m', s') ->
  same_parameters m m' /\
  model_vars m' = model_vars (collect m) /\
  Forall2 (next_from_snapshot draws m s s') (agents m) (agents m') /\
  map pos (agents m') = map pos (agents m) /\
  map unique_id (agents m') = map unique_id (agents m) /\
  states_ok (truthy (disable_chaotic m)) (agents m').
Proof.
  unfold model_step. intros H.
  pose proof (schedule_step_cells _ _ _ _ H) as Hcells.
  apply schedule_step_result in H. destruct H as (staged & _ & _ & ->).
  change (agents (collect m)) with (agents m) in Hcells.
  split; [repeat split|]. split; [reflexivity|].
  split; [exact Hcells|].
  split; [|split].
  - apply Forall2_map_eq. eapply Forall2_impl; [|exact Hcells].
    intros a a' (_ & H & _). exact H.
  - apply Forall2_map_eq. eapply Forall2_impl; [|exact Hcells].
    intros a a' (H & _). exact H.
  - eapply Forall2_right; [|exact Hcells].
    intros a a' (_ & _ & k & k' & _ & _ & H).
    apply computeNext_result in H. destruct H as (Hv & Hc & _).
    split; [exact Hv|exact Hc].
Qed.

Lemma model_step_total (m : NFACAModel) (s : nat) :
  Forall (fun a => valid_state (state a)) (agents m) ->
  exists m' s', model_step draws m s = Ok (m', s').
Proof. intros H. unfold model_step. now apply schedule_step_total. Qed.

End ModelStep.

Lemma small_model_step :
  model_step half_draws small_model 0%nat = Ok (small_model_after, 9%nat).
Proof. vm_compute. reflexivity. Qed.

(** C2. In one call of [model.step()]: the first loop leaves every agent's
    identity, position and current state as they were (it writes the staged
    [next_state] slots only); the states committed are the staged ones, all
    written after the first loop has ended; each committed state is
    [computeNext] of the cell's own pre-step state and the pre-step states of
    its neighbours, at some draw of the generator; and an agent's step gives
    the same result on two stores that differ only in staged slots, so no
    post-step value of a neighbour can reach it. *)
Theorem step_reads_pre_step_states (draws : nat -> Q) (m m' : NFACAModel)
  (s s' : nat) :
  model_step draws m s = Ok (m', s') ->
  (exists staged,
      step_agents draws (collect m) [] (agents m) s = Ok (staged, s') /\
      map unique_id staged = map unique_id (agents m) /\
      map visible staged = map visible (agents m) /\
      agents m' = map advance staged) /\
  Forall2 (next_from_snapshot draws m s s') (agents m) (agents m') /\
  (forall l1 l2 a k,
      map visible l1 = map visible l2 ->
      agent_step draws (set_agents m l1) a k
      = agent_step draws (set_agents m l2) a k).
Proof.
  intros H. split; [|split].
  - unfold model_step in H. apply schedule_step_result in H.
    destruct H as (staged & H1 & H2 & ->). exists staged.
    split; [exact H1|]. apply snapshot_step_spec in H2. destruct H2 as [_ H2].
    change (agents (collect m)) with (agents m) in H2.
    split; [|split; [|reflexivity]].
    + apply Forall2_map_eq. eapply Forall2_impl; [|exact H2].
      intros a a' (k & k' & next & _ & _ & _ & ->). reflexivity.
    + apply Forall2_map_eq. eapply Forall2_impl; [|exact H2].
      intros a a' (k & k' & next & _ & _ & _ & ->). reflexivity.
  - now apply model_step_result in H.
  - intros l1 l2 a k Hvis. now apply agent_step_snapshot.
Qed.

Lemma step_reads_pre_step_states_witness :
  model_step half_draws small_model 0%nat = Ok (small_model_after, 9%nat) /\
  Forall2 (next_from_snapshot half_draws small_model 0 9)
    (agents small_model) (agents small_model_after).
Proof.
  split; [exact small_model_step|].
  apply (step_reads_pre_step_states half_draws small_model small_model_after
           0 9 small_model_step).
Defined.

(** ** Data collection *)

(** C9. A call of [model.step()] that returns has appended to every series
    of the collector the number of cells that were in the series' state when
    the call began; and the call does return when every cell is in one of the
    four states. *)
Theorem collect_samples_before_step (draws : nat -> Q) (m : NFACAModel)
  (s : nat) :
  (Forall (fun a => valid_state (state a)) (agents m) ->
   exists m' s', model_step draws m s = Ok (m', s')) /\
  (forall m' s', model_step draws m s = Ok (m', s') ->
     model_vars m'
     = map (fun series =>
              (fst series,
               snd series ++
               [count_where (fun a => (state a =? fst series)%string)
                  (agents m)]))
         (model_vars m)).
Proof.
  split; [apply model_step_total|].
  intros m' s' H. apply model_step_result in H.
  destruct H as (_ & H & _). rewrite H. reflexivity.
Qed.

Lemma collect_samples_before_step_witness :
  model_step half_draws small_model 0%nat = Ok (small_model_after, 9%nat) /\
  model_vars small_model_after
  = [("Alive", [6]); ("Dying", [0]); ("Stable", [3]); ("Chaotic", [0])] /\
  count_state small_model_after "Alive" = 0.
Proof.
  split; [exact small_model_step|]. split; [|reflexivity].
  destruct (collect_samples_before_step half_draws small_model 0%nat)
    as [_ H].
  exact (H small_model_after 9%nat small_model_step).
Defined.

(** ** Runs of the simulation *)

Lemma states_ok_valid (dis : bool) (l : list NFACellAgent) :
  states_ok dis l -> Forall (fun a => valid_state (state a)) l.
Proof. apply Forall_impl. now intros a [H _]. Qed.

Lemma population_valid (m : NFACAModel) :
  Forall (fun a => valid_state (state a)) (agents m) ->
  population m = Z.of_nat (length (agents m)).
Proof.
  unfold population, count_state. induction 1 as [|a l Ha _ IH].
  - reflexivity.
  - rewrite !count_where_cons. cbn [length]. rewrite Nat2Z.inj_succ, <- IH.
    destruct Ha as [-> | [-> | [-> | ->]]];
      cbn [String.eqb Ascii.eqb Bool.eqb]; lia.
Qed.

Section Runs.
Variable draws : nat -> Q.

(** From a model whose cells are in legal states, any number of steps runs
    to completion and keeps the cells, their places and the parameters. *)
Lemma run_invariant (n : nat) (m : NFACAModel) (s : nat) :
  states_ok (truthy (disable_chaotic m)) (agents m) ->
  exists m' s',
    run draws n m s = Ok (m', s') /\
    same_parameters m m' /\
    states_ok (truthy (disable_chaotic m)) (agents m') /\
    map pos (agents m') = map pos (agents m) /\
    map unique_id (agents m') = map unique_id (agents m).
Proof.
  revert m s. induction n as [|n IH]; intros m s Hok.
  - exists m, s. repeat split; auto.
  - simpl. unfold bind.
    destruct (model_step_total draws m s (states_ok_valid _ _ Hok))
      as (m1 & s1 & E).
    rewrite E. apply model_step_result in E.
    destruct E as (Hpar & _ & _ & Hpos & Hid & Hok1).
    destruct Hpar as (Hw & Hh & Hb & Hc & Hd).
    rewrite <- Hd in Hok1.
    destruct (IH m1 s1 Hok1) as (m' & s' & Hrun & Hpar' & Hok' & Hpos' & Hid').
    exists m', s'. split; [exact Hrun|].
    destruct Hpar' as (Hw' & Hh' & Hb' & Hc' & Hd').
    split; [repeat split; congruence|].
    split; [now rewrite <- Hd|].
    split; congruence.
Qed.

Lemma model_init_states (ia : Q) (dis : bool) (s : nat) :
  states_ok dis (draw_rows draws (new_agent ia) (range 20) (range 20) s).
Proof.
  apply draw_rows_Forall. intros x y r.
  destruct (new_agent_state ia x y r) as [-> | ->];
    (split; [unfold valid_state; auto|discriminate]).
Qed.

End Runs.

(** C1. With [disable_chaotic] true (1): the constructor gives every cell
    the state Alive or Stable; any number of steps from there runs to
    completion and leaves no cell Chaotic; no list of the rewired table
    contains Chaotic; and the override never lets Chaotic through: a resolved
    Chaotic becomes Stable. *)
Theorem chaotic_excluded (draws : nat -> Q) (ia bp cb : Q) (s n : nat) :
  (exists m0 s0 m' s',
      model_init draws ia bp cb 1 s = Ok (m0, s0) /\
      Forall (fun a => state a = "Alive" \/ state a = "Stable") (agents m0) /\
      run draws n m0 s0 = Ok (m', s') /\
      length (agents m') = 400%nat /\
      Forall (fun a => state a <> "Chaotic") (agents m')) /\
  (forall m k l,
      disable_chaotic m = 1 ->
      lookup k (get_transitions m) = Some l -> ~ In "Chaotic" l) /\
  (forall next,
      override 1 next <> "Chaotic" /\
      (next = "Chaotic" -> override 1 next = "Stable")).
Proof.
  split; [|split].
  - rewrite model_init_eq. eexists _, _.
    set (m0 := mkModel _ _ _ _ _ _ _).
    destruct (run_invariant draws n m0 (s + 400)%nat
                (model_init_states draws ia _ s))
      as (m' & s' & Hrun & _ & Hok & Hpos & _).
    exists m', s'. split; [reflexivity|]. split.
    { apply draw_rows_Forall. intros x y r. apply new_agent_state. }
    split; [exact Hrun|]. split.
    { rewrite <- (length_map pos), Hpos, length_map.
      apply model_init_length. }
    eapply Forall_impl; [|exact Hok]. intros a [_ H]. now apply H.
  - intros m k l Hd Hk Hin. apply table_candidates_good in Hk.
    rewrite Hd in Hk. apply good_candidates_not_chaotic in Hk.
    rewrite Forall_forall in Hk. now apply (Hk _ Hin).
  - intros next. split; [apply override_not_chaotic|]. now intros ->.
Qed.

Lemma chaotic_excluded_witness :
  disable_chaotic (example_model (8#10) 1) = 1 /\
  lookup ("Alive", "H") (get_transitions (example_model (8#10) 1))
  = Some ["Dying"] /\
  ~ In "Chaotic" ["Dying"].
Proof.
  split; [reflexivity|]. split; [reflexivity|].
  destruct (chaotic_excluded half_draws (3#10) (1#2) (8#10) 0 1) as (_ & H & _).
  apply (H (example_model (8#10) 1) ("Alive", "H")); reflexivity.
Defined.

(** C6. At every step of a simulation the four counts add up to
    [width * height] = 400: the run from the constructor returns after any
    number of steps, every cell is then in one of the four states, and the
    cells are the 400 cells the constructor placed, each on its own
    coordinate. *)
Theorem population_conserved (draws : nat -> Q) (ia bp cb : Q) (d : Z)
  (s n : nat) :
  exists m0 s0 m' s',
    model_init draws ia bp cb d s = Ok (m0, s0) /\
    run draws n m0 s0 = Ok (m', s') /\
    count_state m' "Alive" + count_state m' "Dying" +
    count_state m' "Stable" + count_state m' "Chaotic" = width m' * height m' /\
    width m' * height m' = 400 /\
    Forall (fun a => valid_state (state a)) (agents m') /\
    map unique_id (agents m') = map unique_id (agents m0) /\
    map pos (agents m') = grid_positions 20 20 /\
    NoDup (grid_positions 20 20).
Proof.
  rewrite model_init_eq. eexists _, _.
  set (m0 := mkModel _ _ _ _ _ _ _).
  destruct (run_invariant draws n m0 (s + 400)%nat
              (model_init_states draws ia _ s))
    as (m' & s' & Hrun & Hpar & Hok & Hpos & Hid).
  exists m', s'. split; [reflexivity|]. split; [exact Hrun|].
  destruct Hpar as (Hw & Hh & _).
  apply states_ok_valid in Hok.
  assert (Hlen : length (agents m') = 400%nat).
  { rewrite <- (length_map pos), Hpos, length_map. apply model_init_length. }
  split.
  { fold (population m'). rewrite (population_valid m' Hok), Hlen, Hw, Hh.
    reflexivity. }
  split; [now rewrite Hw, Hh|]. split; [exact Hok|]. split; [exact Hid|].
  split.
  { rewrite Hpos. apply model_init_positions. }
  apply (NoDup_map_inv (fun p => fst p * 20 + snd p)).
  assert (E : nodup Z.eq_dec
                (map (fun p => fst p * 20 + snd p) (grid_positions 20 20))
              = map (fun p => fst p * 20 + snd p) (grid_positions 20 20))
    by (vm_compute; reflexivity).
  rewrite <- E. apply NoDup_nodup.
Qed.

(** ** Construction and parameter ranges *)

(** C8, as the program has it. The constructor validates nothing: for every
    value of [initial_alive], [branch_prob], [chaos_bias] and
    [disable_chaotic], inside [[0,1]] or not, it returns a model of 400 cells
    holding the parameters as given; it raises no error. *)
Theorem construction_never_fails (draws : nat -> Q) (ia bp cb : Q) (d : Z)
  (s : nat) :
  exists m,
    model_init draws ia bp cb d s = Ok (m, (s + 400)%nat) /\
    branch_prob m = bp /\ chaos_bias m = cb /\ disable_chaotic m = d /\
    width m = 20 /\ height m = 20 /\
    length (agents m) = 400%nat.
Proof.
  rewrite model_init_eq. eexists. split; [reflexivity|].
  do 5 (split; [reflexivity|]). apply model_init_length.
Qed.

(** C8, as the specification states it, fails: with all three probabilities
    outside [[0,1]] the constructor still returns a model (here with every
    cell Alive). *)
Lemma construction_accepts_out_of_range :
  ~ (0 <= 2 <= 1)%Q /\ ~ (0 <= -1 # 2 <= 1)%Q /\ ~ (0 <= 3 # 2 <= 1)%Q /\
  exists m,
    model_init half_draws 2 (-1 # 2) (3 # 2) 0 0%nat = Ok (m, 400%nat) /\
    count_state m "Alive" = 400.
Proof.
  split; [intros [_ H]; now apply H|].
  split; [intros [H _]; now apply H|].
  split; [intros [_ H]; now apply H|].
  rewrite model_init_eq. eexists. split; [reflexivity|].
  vm_compute. reflexivity.
Qed.

(** ** Bias and the frequency of Chaotic *)

Lemma transition_base (draws : nat -> Q) (bp cb : Q) (d : Z)
  (own symbol : string) (states : list string) (s : nat) :
  lookup (own, symbol) BASE_TRANSITIONS = Some states ->
  transition draws bp cb d own symbol s
  = (next <- resolve draws bp (candidates cb d states) ;;
     ret (override d next)) s.
Proof.
  intros H. unfold transition.
  rewrite (lookup_map (candidates cb d)), H. reflexivity.
Qed.

Lemma pos_of_nat_Z (N : nat) : N <> 0%nat -> Z.pos (Pos.of_nat N) = Z.of_nat N.
Proof.
  intros H. rewrite <- positive_nat_Z. f_equal. now apply Nat2Pos.id.
Qed.

(** A threshold of at least 1/2 is passed by at least half of the draws. *)
Lemma half_of_draws_below (bp : Q) (N : nat) :
  (1 # 2 <= bp)%Q ->
  Z.of_nat N <= 2 * count_where (fun r => Qltb r bp) (uniform_draws N).
Proof.
  intros Hbp.
  assert (H : count_where (fun k => (k <? (N + 1) / 2)%nat) (seq 0 N)
              <= count_where (fun r => Qltb r bp) (uniform_draws N)).
  { unfold uniform_draws. rewrite count_where_map.
    apply count_where_le. intros k Hk Hlt.
    apply in_seq in Hk. apply Nat.ltb_lt in Hlt.
    apply Qltb_true_iff. eapply Qlt_le_trans; [|exact Hbp].
    unfold Qlt. simpl. rewrite pos_of_nat_Z by lia.
    assert (Hdiv : (2 * ((N + 1) / 2) <= N + 1)%nat)
      by (apply Nat.Div0.mul_div_le).
    lia. }
  rewrite count_below in H.
  assert (Hmod : (N + 1 = 2 * ((N + 1) / 2) + (N + 1) mod 2)%nat)
    by (apply Nat.div_mod_eq).
  assert (Hlt : ((N + 1) mod 2 < 2)%nat) by (apply Nat.mod_upper_bound; lia).
  lia.
Qed.

(** Entries holding Chaotic: the list at bias 0.8 starts with Chaotic, the
    list at bias 0.2 ends with it, and the other candidate is the same. *)
Lemma chaotic_entry_lists (k : Key) (states : list string) :
  lookup k BASE_TRANSITIONS = Some states -> In "Chaotic" states ->
  exists other, other <> "Chaotic" /\
    candidates (8#10) 0 states = ["Chaotic"; other] /\
    candidates (2#10) 0 states = [other; "Chaotic"].
Proof.
  intros H Hin. base_cases H;
    try (exfalso; simpl in Hin; intuition discriminate);
    eexists; (split; [|split; reflexivity]); discriminate.
Qed.

Lemma chaotic_draws_first (N : nat) (bp cb : Q) (own symbol other : string)
  (states : list string) :
  lookup (own, symbol) BASE_TRANSITIONS = Some states ->
  other <> "Chaotic" ->
  candidates cb 0 states = ["Chaotic"; other] ->
  chaotic_draws N bp cb 0 own symbol
  = count_where (fun r => Qltb r bp) (uniform_draws N).
Proof.
  intros Hk Ho Hc. unfold chaotic_draws. apply count_where_ext_in.
  intros r _. rewrite (transition_base _ _ _ _ _ _ _ _ Hk), Hc.
  unfold bind. rewrite resolve_two. unfold ret, override. simpl.
  destruct (Qltb r bp); [reflexivity|now apply String.eqb_neq].
Qed.

Lemma chaotic_draws_second (N : nat) (bp cb : Q) (own symbol other : string)
  (states : list string) :
  lookup (own, symbol) BASE_TRANSITIONS = Some states ->
  other <> "Chaotic" ->
  candidates cb 0 states = [other; "Chaotic"] ->
  chaotic_draws N bp cb 0 own symbol
  = Z.of_nat N - count_where (fun r => Qltb r bp) (uniform_draws N).
Proof.
  intros Hk Ho Hc.
  transitivity (count_where (fun r => negb (Qltb r bp)) (uniform_draws N));
    [|now rewrite count_where_negb, length_uniform_draws].
  unfold chaotic_draws. apply count_where_ext_in.
  intros r _. rewrite (transition_base _ _ _ _ _ _ _ _ Hk), Hc.
  unfold bind. rewrite resolve_two. unfold ret, override. simpl.
  destruct (Qltb r bp); [now apply String.eqb_neq|reflexivity].
Qed.

(** Where the bias does what model.py lines 119-127 announce ("prefer" and
    "avoid" Chaotic): with Chaotic enabled, for every entry of the table
    whose list contains Chaotic and every [branch_prob] of at least 1/2,
    Chaotic is selected on at least as many of the [N] equally likely draws
    under [chaos_bias = 0.8] as under [chaos_bias = 0.2]. *)
Theorem bias_monotone_from_half (N : nat) (bp : Q) (own symbol : string)
  (states : list string) :
  lookup (own, symbol) BASE_TRANSITIONS = Some states ->
  In "Chaotic" states ->
  (1 # 2 <= bp)%Q ->
  chaotic_draws N bp (2#10) 0 own symbol
  <= chaotic_draws N bp (8#10) 0 own symbol.
Proof.
  intros Hk Hin Hbp.
  destruct (chaotic_entry_lists _ _ Hk Hin) as (other & Ho & H8 & H2).
  rewrite (chaotic_draws_first N bp (8#10) own symbol other states Hk Ho H8).
  rewrite (chaotic_draws_second N bp (2#10) own symbol other states Hk Ho H2).
  pose proof (half_of_draws_below bp N Hbp). lia.
Qed.

Lemma bias_monotone_from_half_witness :
  lookup ("Alive", "M") BASE_TRANSITIONS = Some ["Dying"; "Chaotic"] /\
  In "Chaotic" ["Dying"; "Chaotic"] /\ (1 # 2 <= 3 # 4)%Q /\
  chaotic_draws 8 (3 # 4) (2#10) 0 "Alive" "M"
  <= chaotic_draws 8 (3 # 4) (8#10) 0 "Alive" "M".
Proof.
  split; [reflexivity|]. split; [simpl; auto|]. split; [discriminate|].
  apply (bias_monotone_from_half 8 (3 # 4) "Alive" "M" ["Dying"; "Chaotic"]).
  - reflexivity.
  - simpl; auto.
  - discriminate.
Defined.

(** C7. The program breaks bias monotonicity when [branch_prob] is below
    1/2: the high bias moves Chaotic to the front of the list, and the front
    is then the less likely place.  With [branch_prob = 1/4], in [[0,1]], and
    the entry (Alive, M), whose list contains Chaotic, 2 of 8 equally likely
    draws select Chaotic under [chaos_bias = 0.8] and 6 of 8 under
    [chaos_bias = 0.2]. *)
Lemma bias_not_monotone_below_half :
  (0 <= 1 # 4 <= 1)%Q /\
  lookup ("Alive", "M") BASE_TRANSITIONS = Some ["Dying"; "Chaotic"] /\
  In "Chaotic" ["Dying"; "Chaotic"] /\
  chaotic_draws 8 (1 # 4) (8#10) 0 "Alive" "M" = 2 /\
  chaotic_draws 8 (1 # 4) (2#10) 0 "Alive" "M" = 6 /\
  ~ (chaotic_draws 8 (1 # 4) (2#10) 0 "Alive" "M"
     <= chaotic_draws 8 (1 # 4) (8#10) 0 "Alive" "M").
Proof.
  split; [split; discriminate|]. split; [reflexivity|].
  split; [simpl; auto|]. split; [reflexivity|]. split; [reflexivity|].
  vm_compute. intros H. now apply H.
Qed.

(** ** The Moore neighbourhood on the 20x20 torus *)

Lemma neighbor_positions (m : NFACAModel) (p : Z * Z) :
  map pos (get_neighbors m p)
  = flat_map (fun c => filter (fun q => pos_eqb q c) (map pos (agents m)))
      (get_neighborhood m p).
Proof.
  unfold get_neighbors. rewrite map_flat_map. apply flat_map_ext. intros c.
  induction (agents m) as [|a l IH]; simpl; [reflexivity|].
  destruct (pos_eqb (pos a) c); simpl; now rewrite IH.
Qed.

(** On the grid the constructor builds, and after any number of steps, every
    cell reads exactly eight neighbours. *)
Lemma moore_neighbors_eight (m : NFACAModel) (a : NFACellAgent) :
  width m = 20 -> height m = 20 ->
  map pos (agents m) = grid_positions 20 20 ->
  In a (agents m) ->
  length (get_neighbors m (pos a)) = 8%nat.
Proof.
  intros Hw Hh Hpos Hin.
  rewrite <- (length_map pos), neighbor_positions, Hpos.
  assert (Hn : get_neighborhood m (pos a)
               = get_neighborhood (example_model 0 0) (pos a)).
  { unfold get_neighborhood. now rewrite Hw, Hh. }
  rewrite Hn.
  assert (Hp : In (pos a) (grid_positions 20 20)).
  { rewrite <- Hpos. now apply in_map. }
  assert (Hall : forallb (fun p =>
            (length (flat_map
                       (fun c => filter (fun q => pos_eqb q c)
                                   (grid_positions 20 20))
                       (get_neighborhood (example_model 0 0) p)) =? 8)%nat)
            (grid_positions 20 20) = true) by (vm_compute; reflexivity).
  rewrite forallb_forall in Hall. apply Nat.eqb_eq. now apply Hall.
Qed.

(** * Further properties of the program *)

(** ** Errors of the resolution and of the table lookup *)



Lemma valid_stateb_false (st : string) :
  ~ valid_state st -> valid_stateb st = false.
Proof.
  intros H. apply not_true_iff_false. now rewrite valid_stateb_iff.
Qed.

Lemma lookup_invalid_state (m : NFACAModel) (st sym : string) :
  ~ valid_state st -> lookup (st, sym) (get_transitions m) = None.
Proof.
  intros H. apply valid_stateb_false in H. unfold valid_stateb in H.
  rewrite !orb_false_iff in H. destruct H as [[[HA HD] HS] HC].
  rewrite lookup_get_transitions. unfold BASE_TRANSITIONS, lookup, key_eqb.
  cbn [fst snd]. now rewrite HA, HD, HS, HC.
Qed.


Lemma valid_state_dec (st : string) : {valid_state st} + {~ valid_state st}.
Proof.
  destruct (valid_stateb st) eqn:E.
  - left. now apply valid_stateb_iff.
  - right. intros H. apply valid_stateb_iff in H. congruence.
Qed.




(** ** The staged slot *)

(** X3. Between steps the staged state equals the current one: the constructor
    creates every agent with [next_state = state], every [model.step()] that
    returns leaves [next_state = state] in every cell, and a second
    [advance()] changes nothing. *)
Theorem staged_equals_state (draws : nat -> Q) :
  (forall ia bp cb d s, exists m0,
      model_init draws ia bp cb d s = Ok (m0, (s + 400)%nat) /\
      Forall (fun a => next_state a = state a) (agents m0)) /\
  (forall m m' s s', model_step draws m s = Ok (m', s') ->
      Forall (fun a => next_state a = state a) (agents m')) /\
  (forall a, advance (advance a) = advance a).
Proof.
  split; [|split].
  - intros ia bp cb d s. rewrite model_init_eq. eexists.
    split; [reflexivity|]. cbn [agents].
    apply draw_rows_Forall. reflexivity.
  - intros m m' s s' H. unfold model_step in H.
    apply schedule_step_result in H. destruct H as (staged & _ & _ & ->).
    simpl. apply Forall_forall. intros a Ha. apply in_map_iff in Ha.
    destruct Ha as (b & <- & _). reflexivity.
  - reflexivity.
Qed.

Lemma staged_equals_state_witness :
  model_step half_draws small_model 0%nat = Ok (small_model_after, 9%nat) /\
  Forall (fun a => next_state a = state a) (agents small_model_after).
Proof.
  split; [exact small_model_step|].
  destruct (staged_equals_state half_draws) as (_ & H & _).
  exact (H small_model small_model_after 0%nat 9%nat small_model_step).
Defined.

(** ** The override and the flag *)

Lemma computeNext_member (draws : nat -> Q) (bp cb : Q) (d : Z)
  (own : string) (ns : list string) (s s' : nat) (next : string) :
  computeNext draws bp cb d own ns s = Ok (next, s') ->
  exists l c,
    lookup (own, input_symbol_of
                   (count_where (fun x => (x =? "Alive")%string) ns))
      (get_transitions (mkModel 0 0 bp cb d [] [])) = Some l /\
    resolve draws bp l s = Ok (c, s') /\ In c l /\ next = override d c.
Proof.
  unfold computeNext, transition.
  set (m := mkModel 0 0 bp cb d [] []).
  change (map _ BASE_TRANSITIONS) with (get_transitions m).
  destruct (lookup _ (get_transitions m)) as [l|] eqn:E; [|discriminate].
  pose proof (table_candidates_good _ _ _ E) as Hgood.
  destruct (resolve_total draws bp l s (good_candidates_length _ _ Hgood))
    as (c & s1 & Hr & Hin & _).
  unfold bind. rewrite Hr. unfold ret. intros [= <- <-].
  now exists l, c.
Qed.

Lemma override_table_identity (m : NFACAModel) (k : Key) (l : list string)
  (c : string) :
  lookup k (get_transitions m) = Some l -> In c l ->
  override (disable_chaotic m) c = c.
Proof.
  intros Hk Hin. apply table_candidates_good in Hk.
  destruct (disable_chaotic m =? 1) eqn:E.
  - apply Z.eqb_eq in E. rewrite E in *. simpl in Hk.
    apply good_candidates_not_chaotic in Hk. rewrite Forall_forall in Hk.
    apply override_keeps. now apply Hk.
  - unfold override. now rewrite E.
Qed.

(** X4. The override of agent.py lines 72-73 never changes anything: the
    state an agent stages is always a member of the list the rewired table
    holds for its state and symbol, because a table built with the flag set
    has no Chaotic left to override. *)
Theorem override_never_fires (draws : nat -> Q) (m : NFACAModel)
  (a a' : NFACellAgent) (s s' : nat) :
  agent_step draws m a s = Ok (a', s') ->
  exists l,
    lookup (state a,
            input_symbol_of (alive_neighbors_of (get_neighbors m (pos a))))
      (get_transitions m) = Some l /\
    In (next_state a') l /\
    resolve draws (branch_prob m) l s = Ok (next_state a', s').
Proof.
  intros H. apply agent_step_result in H. destruct H as (next & H & ->).
  apply computeNext_member in H. destruct H as (l & c & Hk & Hr & Hin & ->).
  rewrite count_where_map in Hk.
  change (get_transitions _) with (get_transitions m) in Hk.
  fold (alive_neighbors_of (get_neighbors m (pos a))) in Hk.
  exists l. simpl.
  rewrite (override_table_identity m _ l c Hk Hin). auto.
Qed.

Lemma override_never_fires_witness :
  agent_step half_draws (example_model (1#2) 1)
    (mkAgent (0,0) (0,0) "Alive" "Alive") 0%nat
  = Ok (mkAgent (0,0) (0,0) "Alive" "Stable", 1%nat) /\
  exists l,
    lookup ("Alive", "L") (get_transitions (example_model (1#2) 1)) = Some l /\
    In "Stable" l /\
    resolve half_draws (1#2) l 0%nat = Ok ("Stable", 1%nat).
Proof.
  split; [reflexivity|].
  apply (override_never_fires half_draws (example_model (1#2) 1)
           (mkAgent (0,0) (0,0) "Alive" "Alive")
           (mkAgent (0,0) (0,0) "Alive" "Stable") 0%nat 1%nat).
  reflexivity.
Defined.

(** X5. Chaotic is excluded by any truthy value of [disable_chaotic], not
    only by 1: the table is pruned under [if self.disable_chaotic], so even
    when the override's test [== 1] is false (flag 2, say) a simulation never
    shows a Chaotic cell, and it runs for any number of steps. *)
Theorem chaotic_excluded_any_truthy (draws : nat -> Q) (ia bp cb : Q) (d : Z)
  (s n : nat) :
  d <> 0 ->
  exists m0 m' s',
    model_init draws ia bp cb d s = Ok (m0, (s + 400)%nat) /\
    run draws n m0 (s + 400)%nat = Ok (m', s') /\
    Forall (fun a => state a <> "Chaotic") (agents m') /\
    forall k l, lookup k (get_transitions m') = Some l -> ~ In "Chaotic" l.
Proof.
  intros Hd.
  assert (Ht : truthy d = true).
  { unfold truthy. apply negb_true_iff. now apply Z.eqb_neq. }
  rewrite model_init_eq. eexists.
  set (m0 := mkModel _ _ _ _ _ _ _).
  destruct (run_invariant draws n m0 (s + 400)%nat
              (model_init_states draws ia _ s))
    as (m' & s' & Hrun & Hpar & Hok & _).
  exists m', s'. split; [reflexivity|]. split; [exact Hrun|].
  destruct Hpar as (_ & _ & _ & _ & Hd'). simpl in Hd', Hok.
  split.
  - eapply Forall_impl; [|exact Hok]. intros a [_ H]. now apply H.
  - intros k l Hk Hin. apply table_candidates_good in Hk.
    rewrite Hd', Ht in Hk. apply good_candidates_not_chaotic in Hk.
    rewrite Forall_forall in Hk. now apply (Hk _ Hin).
Qed.

Lemma chaotic_excluded_any_truthy_witness :
  2 <> 0 /\
  exists m0 m' s',
    model_init half_draws (3#10) (1#2) (8#10) 2 0%nat = Ok (m0, 400%nat) /\
    run half_draws 1 m0 400%nat = Ok (m', s') /\
    Forall (fun a => state a <> "Chaotic") (agents m') /\
    forall k l, lookup k (get_transitions m') = Some l -> ~ In "Chaotic" l.
Proof.
  split; [discriminate|].
  apply (chaotic_excluded_any_truthy half_draws (3#10) (1#2) (8#10) 2 0 1).
  discriminate.
Defined.

(** ** What the bias can and cannot change *)

Lemma reorder_without_chaotic (cb : Q) (l : list string) :
  ~ In "Chaotic" l -> reorder cb l = l.
Proof.
  intros H.
  assert (E1 : filter is_chaotic l = []).
  { induction l as [|x l IH]; [reflexivity|]. simpl.
    assert (Hx : is_chaotic x = false).
    { apply String.eqb_neq. intros ->. apply H. now left. }
    rewrite Hx. apply IH. intros Hin. apply H. now right. }
  assert (E2 : filter not_chaotic l = l).
  { clear E1. induction l as [|x l IH]; [reflexivity|]. simpl.
    assert (Hx : not_chaotic x = true).
    { apply not_chaotic_iff. intros ->. apply H. now left. }
    rewrite Hx. f_equal. apply IH.
    intros Hin. apply H. now right. }
  destruct (Qlt_le_dec (7#10) cb) as [Hhi|Hhi].
  - now rewrite (reorder_high _ _ Hhi), E1, E2.
  - destruct (Qlt_le_dec cb (3#10)) as [Hlo|Hlo].
    + now rewrite (reorder_low _ _ Hlo), E1, E2, app_nil_r.
    + now apply reorder_middle.
Qed.

(** X6. With Chaotic disabled the bias has no effect: for any list, the
    candidates are the non-Chaotic states in their base order (or
    [["Stable"]] when there is none), whatever [chaos_bias]; two models that
    differ only in bias have the same table. *)
Theorem bias_irrelevant_when_disabled (cb cb' : Q) (d : Z)
  (states : list string) :
  truthy d = true ->
  candidates cb d states
  = match filter not_chaotic states with
    | [] => ["Stable"]
    | c :: rest => c :: rest
    end /\
  candidates cb d states = candidates cb' d states /\
  get_transitions (example_model cb d) = get_transitions (example_model cb' d).
Proof.
  intros Hd.
  assert (E : forall b, candidates b d states
              = match filter not_chaotic states with
                | [] => ["Stable"]
                | c :: rest => c :: rest
                end).
  { intros b. unfold candidates, prune. rewrite Hd.
    change (fun s => negb (s =? "Chaotic")%string) with not_chaotic.
    destruct (reorder_stable b states) as [_ ->].
    now destruct (filter not_chaotic states). }
  split; [apply E|]. split; [now rewrite !E|].
  unfold get_transitions. apply map_ext. intros kv. simpl. f_equal.
  unfold candidates, prune. rewrite Hd.
  change (fun s => negb (s =? "Chaotic")%string) with not_chaotic.
  destruct (reorder_stable cb (snd kv)) as [_ ->].
  destruct (reorder_stable cb' (snd kv)) as [_ ->]. reflexivity.
Qed.

Lemma bias_irrelevant_when_disabled_witness :
  truthy 1 = true /\
  candidates (9#10) 1 ["Dying"; "Chaotic"]
  = candidates (1#10) 1 ["Dying"; "Chaotic"].
Proof.
  split; [reflexivity|].
  apply (bias_irrelevant_when_disabled (9#10) (1#10) 1 ["Dying"; "Chaotic"]).
  reflexivity.
Defined.

(** X7. A list without Chaotic is stored as it is: neither the bias nor the
    flag changes it (the sort keys are all equal and the sort is stable;
    nothing is pruned).  Six of the twelve base entries are of this kind. *)
Theorem candidates_without_chaotic (cb : Q) (d : Z) (states : list string) :
  ~ In "Chaotic" states -> states <> [] ->
  candidates cb d states = states.
Proof.
  intros H Hne. unfold candidates. rewrite (reorder_without_chaotic cb _ H).
  unfold prune. destruct (truthy d); [|reflexivity].
  assert (E : filter (fun s => negb (s =? "Chaotic")%string) states = states).
  { clear Hne. induction states as [|x l IH]; [reflexivity|]. simpl.
    assert (Hx : negb (x =? "Chaotic")%string = true).
    { apply not_chaotic_iff. intros ->. apply H. now left. }
    rewrite Hx. f_equal. apply IH. intros Hin. apply H. now right. }
  rewrite E. destruct states; [contradiction|reflexivity].
Qed.

Lemma candidates_without_chaotic_witness :
  ~ In "Chaotic" ["Alive"; "Stable"] /\ ["Alive"; "Stable"] <> [] /\
  candidates (9#10) 1 ["Alive"; "Stable"] = ["Alive"; "Stable"].
Proof.
  assert (H : ~ In "Chaotic" ["Alive"; "Stable"])
    by (simpl; intuition discriminate).
  split; [exact H|]. split; [discriminate|].
  apply (candidates_without_chaotic (9#10) 1 ["Alive"; "Stable"] H).
  discriminate.
Defined.

(** X8. Rewiring keeps the shape of the table: the rewired table has the
    twelve keys of the base table in the same order, and every candidate of
    an entry is one of the entry's base candidates; on the base table the
    Stable fallback never adds a state. *)
Theorem rewiring_keeps_keys_and_states (m : NFACAModel) :
  map fst (get_transitions m) = map fst BASE_TRANSITIONS /\
  length (get_transitions m) = 12%nat /\
  forall k states l,
    lookup k BASE_TRANSITIONS = Some states ->
    lookup k (get_transitions m) = Some l ->
    forall c, In c l -> In c states.
Proof.
  split; [|split].
  - unfold get_transitions. rewrite map_map. reflexivity.
  - unfold get_transitions. now rewrite length_map.
  - intros k states l Hb Hk c Hin.
    rewrite lookup_get_transitions, Hb in Hk. injection Hk as <-.
    revert c Hin. apply Forall_forall.
    base_cases Hb; bias_cases (chaos_bias m) (disable_chaotic m);
      repeat (apply Forall_cons; [simpl; tauto|]); apply Forall_nil.
Qed.

Lemma rewiring_keeps_keys_and_states_witness :
  lookup ("Dying", "M") BASE_TRANSITIONS = Some ["Chaotic"; "Alive"] /\
  lookup ("Dying", "M") (get_transitions (example_model (1#2) 1))
  = Some ["Alive"] /\
  In "Alive" ["Chaotic"; "Alive"].
Proof.
  split; [reflexivity|]. split; [reflexivity|].
  destruct (rewiring_keeps_keys_and_states (example_model (1#2) 1))
    as (_ & _ & H).
  apply (H ("Dying", "M") ["Chaotic"; "Alive"] ["Alive"]);
    [reflexivity|reflexivity|simpl; auto].
Defined.

(** ** Draws consumed by a step *)

Lemma enabled_two_candidates (m : NFACAModel) (k : Key) (l : list string) :
  truthy (disable_chaotic m) = false ->
  lookup k (get_transitions m) = Some l -> length l = 2%nat.
Proof.
  intros Hd Hk. rewrite lookup_get_transitions in Hk.
  destruct (lookup k BASE_TRANSITIONS) as [states|] eqn:E; [|discriminate].
  injection Hk as <-. unfold candidates, prune. rewrite Hd.
  rewrite (Permutation_length (reorder_Permutation _ _)).
  now apply base_entry_shape in E.
Qed.

Lemma agent_step_draws (draws : nat -> Q) (m : NFACAModel)
  (a a' : NFACellAgent) (s s' : nat) :
  agent_step draws m a s = Ok (a', s') ->
  (s <= s' <= S s)%nat /\
  (truthy (disable_chaotic m) = false -> s' = S s).
Proof.
  intros H. apply agent_step_result in H. destruct H as (next & H & _).
  split; [now apply computeNext_result in H|].
  intros Hd. apply computeNext_member in H.
  destruct H as (l & c & Hk & Hr & _).
  change (get_transitions _) with (get_transitions m) in Hk.
  pose proof (enabled_two_candidates m _ l Hd Hk) as Hlen.
  destruct l as [|c0 [|c1 [|? ?]]]; try discriminate.
  rewrite resolve_two in Hr. now injection Hr.
Qed.

Lemma snapshot_step_draws (draws : nat -> Q) (m0 : NFACAModel)
  (todo staged : list NFACellAgent) (s s' : nat) :
  snapshot_step draws m0 todo s = Ok (staged, s') ->
  (s <= s' <= s + length todo)%nat /\
  (truthy (disable_chaotic m0) = false -> s' = (s + length todo)%nat).
Proof.
  revert staged s s'. induction todo as [|a rest IH]; intros staged s s'.
  - simpl. unfold ret. intros [= <- <-]. split; [lia|intros _; lia].
  - simpl. unfold bind.
    destruct (agent_step draws m0 a s) as [[a' s1]|] eqn:E; [|discriminate].
    destruct (snapshot_step draws m0 rest s1) as [[rest' s2]|] eqn:E';
      [|discriminate].
    unfold ret. intros [= <- <-].
    apply agent_step_draws in E. destruct E as [Hb He].
    destruct (IH _ _ _ E') as [Hb' He'].
    split; [lia|]. intros Hd. rewrite (He' Hd), (He Hd). lia.
Qed.

(** X9. A step that returns makes at most one draw per cell, and with
    Chaotic enabled (flag falsy) exactly one per cell: every list then has
    two candidates.  So the generator advances by a known amount, 400 per
    step on the grid of the constructor. *)
Theorem draws_per_step (draws : nat -> Q) (m m' : NFACAModel) (s s' : nat) :
  model_step draws m s = Ok (m', s') ->
  (s <= s' <= s + length (agents m))%nat /\
  (truthy (disable_chaotic m) = false -> s' = (s + length (agents m))%nat).
Proof.
  intros H. unfold model_step in H. apply schedule_step_result in H.
  destruct H as (staged & _ & H & _).
  apply snapshot_step_draws in H. exact H.
Qed.

Lemma draws_per_step_witness :
  model_step half_draws small_model 0%nat = Ok (small_model_after, 9%nat) /\
  truthy (disable_chaotic small_model) = false /\
  9%nat = (0 + length (agents small_model))%nat.
Proof.
  split; [exact small_model_step|]. split; [reflexivity|].
  destruct (draws_per_step half_draws small_model small_model_after
              0%nat 9%nat small_model_step) as [_ H].
  apply H. reflexivity.
Defined.

(** ** Density and the next state *)

Lemma low_density_lists (m : NFACAModel) (st : string) (l : list string) :
  lookup (st, "L") (get_transitions m) = Some l ->
  Forall (fun c => c = "Alive" \/ c = "Stable") l.
Proof.
  intros Hk. destruct (valid_state_dec st) as [Hv|Hv].
  - rewrite lookup_get_transitions in Hk.
    destruct Hv as [-> | [-> | [-> | ->]]];
      simpl in Hk; injection Hk as <-;
      bias_cases (chaos_bias m) (disable_chaotic m);
      repeat (apply Forall_cons; [auto|]); apply Forall_nil.
  - rewrite lookup_invalid_state in Hk by assumption. discriminate.
Qed.

(** X10. A cell with at most two Alive neighbours becomes Alive or Stable,
    whatever its state, the bias, the branch probability and the flag:
    Dying and Chaotic can only be entered from medium or high density. *)
Theorem low_density_calms (draws : nat -> Q) (m : NFACAModel)
  (a a' : NFACellAgent) (s s' : nat) :
  agent_step draws m a s = Ok (a', s') ->
  alive_neighbors_of (get_neighbors m (pos a)) <= 2 ->
  next_state a' = "Alive" \/ next_state a' = "Stable".
Proof.
  intros H Hlow. apply agent_step_result in H. destruct H as (next & H & ->).
  apply computeNext_member in H. destruct H as (l & c & Hk & _ & Hin & ->).
  rewrite count_where_map in Hk.
  change (get_transitions _) with (get_transitions m) in Hk.
  fold (alive_neighbors_of (get_neighbors m (pos a))) in Hk.
  simpl. rewrite (override_table_identity m _ l c Hk Hin).
  unfold input_symbol_of in Hk. apply Z.leb_le in Hlow. rewrite Hlow in Hk.
  apply low_density_lists in Hk. rewrite Forall_forall in Hk. now apply Hk.
Qed.

Lemma low_density_calms_witness :
  agent_step half_draws quiet_model (mkAgent (1,1) (1,1) "Stable" "Stable")
    0%nat
  = Ok (mkAgent (1,1) (1,1) "Stable" "Stable", 1%nat) /\
  alive_neighbors_of (get_neighbors quiet_model (1,1)) <= 2 /\
  ("Stable" = "Alive" \/ "Stable" = "Stable").
Proof.
  split; [reflexivity|]. split; [discriminate|].
  apply (low_density_calms half_draws quiet_model
           (mkAgent (1,1) (1,1) "Stable" "Stable")
           (mkAgent (1,1) (1,1) "Stable" "Stable") 0%nat 1%nat);
    [reflexivity|discriminate].
Defined.

(** ** Neighbours *)

Lemma pos_eqb_eq (p q : Z * Z) : pos_eqb p q = true <-> p = q.
Proof.
  destruct p as [a b], q as [c d]. unfold pos_eqb. simpl.
  rewrite andb_true_iff, !Z.eqb_eq.
  split; [intros [-> ->]|intros [= -> ->]]; auto.
Qed.

Lemma count_where_le_length {A} (f : A -> bool) (l : list A) :
  count_where f l <= Z.of_nat (length l).
Proof.
  induction l as [|x l IH]; [reflexivity|].
  rewrite count_where_cons. cbn [length]. rewrite Nat2Z.inj_succ.
  destruct (f x); lia.
Qed.

(** X11. A cell is never its own neighbour, so its own state does not count
    towards the density it reads; the count of Alive neighbours lies between
    0 and the number of neighbours, which is 8 on the full 20x20 torus. *)
Theorem neighbours_exclude_self (m : NFACAModel) (a : NFACellAgent) :
  (forall n, In n (get_neighbors m (pos a)) -> pos n <> pos a) /\
  0 <= alive_neighbors_of (get_neighbors m (pos a))
    <= Z.of_nat (length (get_neighbors m (pos a))) /\
  (width m = 20 -> height m = 20 ->
   map pos (agents m) = grid_positions 20 20 -> In a (agents m) ->
   alive_neighbors_of (get_neighbors m (pos a)) <= 8).
Proof.
  split; [|split].
  - intros n Hn. unfold get_neighbors in Hn. apply in_flat_map in Hn.
    destruct Hn as (c & Hc & Hn). apply filter_In in Hn.
    destruct Hn as [_ Hn]. apply pos_eqb_eq in Hn.
    unfold get_neighborhood in Hc. apply filter_In in Hc.
    destruct Hc as [_ Hc]. cbv beta in Hc. apply negb_true_iff in Hc.
    intros E.
    assert (Hp : pos_eqb c (pos a) = true)
      by (apply pos_eqb_eq; congruence).
    congruence.
  - split; [apply count_where_nonneg|apply count_where_le_length].
  - intros Hw Hh Hpos Hin.
    pose proof (count_where_le_length
                  (fun n => (state n =? "Alive")%string)
                  (get_neighbors m (pos a))) as H.
    rewrite (moore_neighbors_eight m a Hw Hh Hpos Hin) in H. exact H.
Qed.

Lemma neighbours_exclude_self_witness :
  (width (uniform_model (1#2) (1#2) 0 "Alive") = 20 /\
   height (uniform_model (1#2) (1#2) 0 "Alive") = 20 /\
   map pos (agents (uniform_model (1#2) (1#2) 0 "Alive"))
   = grid_positions 20 20 /\
   In (mkAgent (0,0) (0,0) "Alive" "Alive")
      (agents (uniform_model (1#2) (1#2) 0 "Alive"))) /\
  alive_neighbors_of
    (get_neighbors (uniform_model (1#2) (1#2) 0 "Alive") (0,0)) <= 8.
Proof.
  assert (Hpos : map pos (agents (uniform_model (1#2) (1#2) 0 "Alive"))
                 = grid_positions 20 20) by (vm_compute; reflexivity).
  assert (Hin : In (mkAgent (0,0) (0,0) "Alive" "Alive")
                   (agents (uniform_model (1#2) (1#2) 0 "Alive")))
    by (left; reflexivity).
  split; [repeat split; assumption|].
  destruct (neighbours_exclude_self (uniform_model (1#2) (1#2) 0 "Alive")
              (mkAgent (0,0) (0,0) "Alive" "Alive")) as (_ & _ & H).
  apply H; [reflexivity|reflexivity|exact Hpos|exact Hin].
Defined.

(** ** Seeding of the grid *)

Lemma draw_row_states (draws : nat -> Q) (ia : Q) (x : Z) (ys : list Z)
  (s : nat) :
  map state (draw_row draws (new_agent ia x) ys s)
  = map (fun k => seeded_state ia (draws k)) (seq s (length ys)).
Proof.
  revert s. induction ys as [|y ys IH]; intros s; simpl; [reflexivity|].
  now rewrite IH.
Qed.

Lemma draw_rows_states (draws : nat -> Q) (ia : Q) (xs ys : list Z)
  (s : nat) :
  map state (draw_rows draws (new_agent ia) xs ys s)
  = map (fun k => seeded_state ia (draws k))
      (seq s (length xs * length ys)).
Proof.
  revert s. induction xs as [|x xs IH]; intros s; [reflexivity|].
  cbn [draw_rows length Nat.mul]. rewrite map_app, draw_row_states, IH.
  now rewrite seq_app, map_app.
Qed.

Lemma count_state_seeded (draws : nat -> Q) (ia : Q) (ks : list nat) :
  count_where (fun st => (st =? "Alive")%string)
    (map (fun k => seeded_state ia (draws k)) ks)
  = count_where (fun k => Qltb (draws k) ia) ks.
Proof.
  rewrite count_where_map. apply count_where_ext_in. intros k _.
  unfold seeded_state. now destruct (Qltb (draws k) ia).
Qed.

Lemma count_where_all {A} (f : A -> bool) (l : list A) :
  (forall x, In x l -> f x = true) -> count_where f l = Z.of_nat (length l).
Proof.
  intros H. induction l as [|x l IH]; [reflexivity|].
  rewrite count_where_cons, IH, (H x (or_introl eq_refl)).
  - cbn [length]. lia.
  - intros y Hy. apply H. now right.
Qed.

Lemma count_where_none {A} (f : A -> bool) (l : list A) :
  (forall x, In x l -> f x = false) -> count_where f l = 0.
Proof.
  intros H. induction l as [|x l IH]; [reflexivity|].
  rewrite count_where_cons, IH, (H x (or_introl eq_refl)).
  - reflexivity.
  - intros y Hy. apply H. now right.
Qed.

(** X12. The constructor seeds cell number [k] (row by row) from draw number
    [s + k]: Alive when the draw is below [initial_alive], Stable otherwise.
    So the number of Alive cells is the number of the 400 draws below
    [initial_alive]; with draws in [[0,1)], [initial_alive >= 1] makes every
    cell Alive and [initial_alive <= 0] makes every cell Stable. *)
Theorem initial_alive_seeding (draws : nat -> Q) (ia bp cb : Q) (d : Z)
  (s : nat) :
  exists m0,
    model_init draws ia bp cb d s = Ok (m0, (s + 400)%nat) /\
    map state (agents m0)
    = map (fun k => seeded_state ia (draws k)) (seq s 400) /\
    count_state m0 "Alive"
    = count_where (fun k => Qltb (draws k) ia) (seq s 400) /\
    ((forall k, (draws k < 1)%Q) -> (1 <= ia)%Q ->
     count_state m0 "Alive" = 400) /\
    ((forall k, (0 <= draws k)%Q) -> (ia <= 0)%Q ->
     count_state m0 "Alive" = 0 /\ count_state m0 "Stable" = 400).
Proof.
  rewrite model_init_eq. eexists. split; [reflexivity|].
  set (l := draw_rows draws (new_agent ia) (range 20) (range 20) s).
  assert (Hst : map state l
                = map (fun k => seeded_state ia (draws k)) (seq s 400)).
  { unfold l. rewrite draw_rows_states. reflexivity. }
  assert (Hal : count_where (fun a => (state a =? "Alive")%string) l
                = count_where (fun k => Qltb (draws k) ia) (seq s 400)).
  { rewrite <- count_state_seeded, <- Hst. now rewrite count_where_map. }
  unfold count_state. cbn [agents]. fold l.
  split; [exact Hst|]. split; [exact Hal|]. split.
  - intros Hr Hia. rewrite Hal, count_where_all.
    + now rewrite length_seq.
    + intros k _. apply Qltb_true_iff. eapply Qlt_le_trans; [apply Hr|exact Hia].
  - intros Hr Hia.
    assert (Hnone : forall k, In k (seq s 400) -> Qltb (draws k) ia = false).
    { intros k _. apply Qltb_false_iff. eapply Qle_trans; [exact Hia|apply Hr]. }
    split; [rewrite Hal; now apply count_where_none|].
    rewrite <- (count_where_map (fun st => (st =? "Stable")%string) state).
    rewrite Hst, count_where_map, count_where_all.
    + now rewrite length_seq.
    + intros k Hk. unfold seeded_state. now rewrite (Hnone k Hk).
Qed.

Lemma initial_alive_seeding_witness :
  (forall k, (half_draws k < 1)%Q) /\ (1 <= 1)%Q /\
  exists m0,
    model_init half_draws 1 (1#2) (1#2) 0 0%nat = Ok (m0, 400%nat) /\
    count_state m0 "Alive" = 400.
Proof.
  assert (Hr : forall k, (half_draws k < 1)%Q) by (intros k; reflexivity).
  assert (Hia : (1 <= 1)%Q) by discriminate.
  split; [exact Hr|]. split; [exact Hia|].
  destruct (initial_alive_seeding half_draws 1 (1#2) (1#2) 0 0%nat)
    as (m0 & Hinit & _ & _ & H & _).
  exists m0. split; [exact Hinit|]. now apply H.
Defined.

(** ** The collected series *)

Lemma collect_series (total : Z) (k : nat) (m : NFACAModel) :
  series_ok total k (model_vars m) -> population m = total ->
  series_ok total (S k) (model_vars (collect m)).
Proof.
  intros (la & ld & ls & lc & Hv & Ha & Hd & Hs & Hc & Hsum) Hpop.
  exists (la ++ [count_state m "Alive"]), (ld ++ [count_state m "Dying"]),
         (ls ++ [count_state m "Stable"]), (lc ++ [count_state m "Chaotic"]).
  split; [unfold collect; simpl; rewrite Hv; reflexivity|].
  rewrite !length_app. simpl.
  do 4 (split; [lia|]).
  intros i Hi. destruct (Nat.eq_dec i k) as [->|Hne].
  - rewrite !app_nth2 by lia.
    rewrite Ha at 1. rewrite Hd at 1. rewrite Hs at 1. rewrite Hc at 1.
    rewrite Nat.sub_diag. simpl. exact Hpop.
  - rewrite !app_nth1 by lia. apply Hsum. lia.
Qed.

Lemma run_series (draws : nat -> Q) (n : nat) (m : NFACAModel) (s k : nat) :
  states_ok (truthy (disable_chaotic m)) (agents m) ->
  series_ok (Z.of_nat (length (agents m))) k (model_vars m) ->
  exists m' s',
    run draws n m s = Ok (m', s') /\
    series_ok (Z.of_nat (length (agents m))) (k + n) (model_vars m').
Proof.
  revert m s k. induction n as [|n IH]; intros m s k Hok Hser.
  - exists m, s. split; [reflexivity|]. now rewrite Nat.add_0_r.
  - simpl. unfold bind.
    destruct (model_step_total draws m s (states_ok_valid _ _ Hok))
      as (m1 & s1 & E).
    rewrite E. apply model_step_result in E.
    destruct E as (Hpar & Hvars & _ & Hpos & _ & Hok1).
    destruct Hpar as (_ & _ & _ & _ & Hd). rewrite <- Hd in Hok1.
    assert (Hlen : length (agents m1) = length (agents m)).
    { rewrite <- (length_map pos), Hpos. apply length_map. }
    assert (Hser1 : series_ok (Z.of_nat (length (agents m1))) (S k)
                      (model_vars m1)).
    { rewrite Hvars, Hlen. apply collect_series; [exact Hser|].
      apply population_valid. now apply states_ok_valid in Hok. }
    destruct (IH m1 s1 (S k) Hok1 Hser1) as (m' & s' & Hrun & Hser').
    exists m', s'. split; [exact Hrun|].
    rewrite Hlen in Hser'. now replace (k + S n)%nat with (S k + n)%nat by lia.
Qed.

(** X13. After [n] steps of a simulation the collector holds the four
    series Alive, Dying, Stable, Chaotic in that order, each with exactly
    [n] samples, and the four samples of any one step add up to 400: what
    the chart shows always accounts for every cell. *)
Theorem collected_series_account_for_all (draws : nat -> Q) (ia bp cb : Q)
  (d : Z) (s n : nat) :
  exists m0 m' s' la ld ls lc,
    model_init draws ia bp cb d s = Ok (m0, (s + 400)%nat) /\
    run draws n m0 (s + 400)%nat = Ok (m', s') /\
    model_vars m'
    = [("Alive", la); ("Dying", ld); ("Stable", ls); ("Chaotic", lc)] /\
    length la = n /\ length ld = n /\ length ls = n /\ length lc = n /\
    forall i, (i < n)%nat ->
      nth i la 0 + nth i ld 0 + nth i ls 0 + nth i lc 0 = 400.
Proof.
  rewrite model_init_eq. eexists.
  set (m0 := mkModel _ _ _ _ _ _ _).
  assert (Hlen : length (agents m0) = 400%nat) by apply model_init_length.
  assert (Hser : series_ok (Z.of_nat (length (agents m0))) 0 (model_vars m0)).
  { exists [], [], [], []. repeat split. intros i Hi. lia. }
  destruct (run_series draws n m0 (s + 400)%nat 0
              (model_init_states draws ia _ s) Hser)
    as (m' & s' & Hrun & Hser').
  rewrite Hlen in Hser'.
  destruct Hser' as (la & ld & ls & lc & Hv & Ha & Hd & Hs & Hc & Hsum).
  exists m', s', la, ld, ls, lc.
  split; [reflexivity|]. split; [exact Hrun|]. split; [exact Hv|].
  repeat split; auto.
Qed.

(** ** Portrayal *)

Lemma portrayal_color (a : NFACellAgent) :
  dict_get "Color" (agent_portrayal a)
  = Some (PStr (if (state a =? "Alive")%string then "green"
                else if (state a =? "Dying")%string then "red"
                else if (state a =? "Stable")%string then "purple"
                else "gray")).
Proof.
  unfold agent_portrayal.
  destruct (state a =? "Alive")%string; [reflexivity|].
  destruct (state a =? "Dying")%string; [reflexivity|].
  destruct (state a =? "Stable")%string; reflexivity.
Qed.

(** X14. [agent_portrayal] always returns the six keys Shape, w, h, Filled,
    Layer, Color, in that order; the colour tells the four states apart
    (two cells in states of the automaton get the same colour only if they
    are in the same state), and a state outside the four is drawn gray, like
    Chaotic. *)
Theorem portrayal_tells_states_apart (a b : NFACellAgent) :
  map fst (agent_portrayal a)
  = ["Shape"; "w"; "h"; "Filled"; "Layer"; "Color"] /\
  (valid_state (state a) -> valid_state (state b) ->
   dict_get "Color" (agent_portrayal a) = dict_get "Color" (agent_portrayal b) ->
   state a = state b) /\
  (~ valid_state (state a) ->
   dict_get "Color" (agent_portrayal a) = Some (PStr "gray")).
Proof.
  split; [|split].
  - unfold agent_portrayal.
    destruct (state a =? "Alive")%string; [reflexivity|].
    destruct (state a =? "Dying")%string; [reflexivity|].
    destruct (state a =? "Stable")%string; reflexivity.
  - rewrite !portrayal_color.
    intros [-> | [-> | [-> | ->]]] [-> | [-> | [-> | ->]]];
      simpl; intros H; try reflexivity; discriminate.
  - intros H. apply valid_stateb_false in H. unfold valid_stateb in H.
    rewrite !orb_false_iff in H. destruct H as [[[HA HD] HS] _].
    rewrite portrayal_color, HA, HD, HS. reflexivity.
Qed.

Lemma portrayal_tells_states_apart_witness :
  valid_state "Dying" /\ valid_state "Dying" /\
  state (mkAgent (0,0) (0,0) "Dying" "Alive")
  = state (mkAgent (3,4) (3,4) "Dying" "Dying").
Proof.
  assert (H : valid_state "Dying") by (unfold valid_state; auto).
  split; [exact H|]. split; [exact H|].
  destruct (portrayal_tells_states_apart
              (mkAgent (0,0) (0,0) "Dying" "Alive")
              (mkAgent (3,4) (3,4) "Dying" "Dying")) as (_ & Hc & _).
  apply Hc; [exact H|exact H|reflexivity].
Defined.

(** ** The canvas and the grid *)

Lemma filter_pos_length (c : Z * Z) (l : list NFACellAgent) :
  length (filter (fun a => pos_eqb (pos a) c) l)
  = length (filter (fun q => pos_eqb q c) (map pos l)).
Proof.
  induction l as [|a l IH]; [reflexivity|]. simpl.
  destruct (pos_eqb (pos a) c); simpl; now rewrite IH.
Qed.

Lemma in_range (n x : Z) : 0 <= x < n -> In x (range n).
Proof.
  intros H. unfold range. apply in_map_iff. exists (Z.to_nat x).
  split; [lia|]. apply in_seq. lia.
Qed.

Lemma in_grid_positions (w h x y : Z) :
  0 <= x < w -> 0 <= y < h -> In (x, y) (grid_positions w h).
Proof.
  intros Hx Hy. unfold grid_positions. apply in_flat_map.
  exists x. split; [now apply in_range|].
  apply in_map. now apply in_range.
Qed.

(** X15. The canvas of run.py and the grid of the model agree: at every step
    of a simulation each agent stands on a cell of the 20x20 canvas, and
    each cell of the canvas holds exactly one agent. *)
Theorem canvas_matches_grid (draws : nat -> Q) (ia bp cb : Q) (d : Z)
  (s n : nat) :
  exists m0 m' s',
    model_init draws ia bp cb d s = Ok (m0, (s + 400)%nat) /\
    run draws n m0 (s + 400)%nat = Ok (m', s') /\
    Forall (fun a => 0 <= fst (pos a) < canvas_width /\
                     0 <= snd (pos a) < canvas_height) (agents m') /\
    forall x y, 0 <= x < canvas_width -> 0 <= y < canvas_height ->
      length (filter (fun a => pos_eqb (pos a) (x, y)) (agents m')) = 1%nat.
Proof.
  rewrite model_init_eq. eexists.
  set (m0 := mkModel _ _ _ _ _ _ _).
  destruct (run_invariant draws n m0 (s + 400)%nat
              (model_init_states draws ia _ s))
    as (m' & s' & Hrun & _ & _ & Hpos & _).
  exists m', s'. split; [reflexivity|]. split; [exact Hrun|].
  assert (Hgrid : map pos (agents m') = grid_positions 20 20).
  { rewrite Hpos. apply model_init_positions. }
  split.
  - assert (Hall : forallb (fun p => (0 <=? fst p) && (fst p <? 20) &&
                                     (0 <=? snd p) && (snd p <? 20))
                     (grid_positions 20 20) = true) by (vm_compute; reflexivity).
    rewrite forallb_forall in Hall. apply Forall_forall. intros a Ha.
    assert (Hin : In (pos a) (grid_positions 20 20)).
    { rewrite <- Hgrid. now apply in_map. }
    apply Hall in Hin. rewrite !andb_true_iff in Hin.
    unfold canvas_width, canvas_height. lia.
  - intros x y Hx Hy. rewrite filter_pos_length, Hgrid.
    assert (Hall : forallb (fun c =>
                (length (filter (fun q => pos_eqb q c) (grid_positions 20 20))
                 =? 1)%nat) (grid_positions 20 20) = true)
      by (vm_compute; reflexivity).
    rewrite forallb_forall in Hall. apply Nat.eqb_eq. apply Hall.
    now apply in_grid_positions.
Qed.

(** ** What a step leaves alone *)

(** X16. A [model.step()] that returns changes nothing but the states, the
    staged slots and the collected series: the grid size, the three
    parameters, the number of agents, their identities and their positions
    are those of the model it was called on, for any model. *)
Theorem step_frame (draws : nat -> Q) (m m' : NFACAModel) (s s' : nat) :
  model_step draws m s = Ok (m', s') ->
  width m' = width m /\ height m' = height m /\
  branch_prob m' = branch_prob m /\ chaos_bias m' = chaos_bias m /\
  disable_chaotic m' = disable_chaotic m /\
  length (agents m') = length (agents m) /\
  map unique_id (agents m') = map unique_id (agents m) /\
  map pos (agents m') = map pos (agents m) /\
  map fst (model_vars m') = map fst (model_vars m).
Proof.
  intros H. apply model_step_result in H.
  destruct H as ((Hw & Hh & Hb & Hc & Hd) & Hv & _ & Hpos & Hid & _).
  do 5 (split; [assumption|]).
  split; [rewrite <- (length_map pos), Hpos; apply length_map|].
  split; [exact Hid|]. split; [exact Hpos|].
  rewrite Hv. unfold collect. simpl. now rewrite map_map.
Qed.

Lemma step_frame_witness :
  model_step half_draws small_model 0%nat = Ok (small_model_after, 9%nat) /\
  map pos (agents small_model_after) = map pos (agents small_model).
Proof.
  split; [exact small_model_step|].
  apply (step_frame half_draws small_model small_model_after 0%nat 9%nat
           small_model_step).
Defined.

(** ** Rules of the automaton *)

Lemma crowded_alive_lists (m : NFACAModel) (sym : string) (l : list string) :
  sym = "M" \/ sym = "H" ->
  lookup ("Alive", sym) (get_transitions m) = Some l ->
  Forall (fun c => c = "Dying" \/ c = "Chaotic") l.
Proof.
  intros Hsym Hk. rewrite lookup_get_transitions in Hk.
  destruct Hsym as [-> | ->]; simpl in Hk; injection Hk as <-;
    bias_cases (chaos_bias m) (disable_chaotic m);
    repeat (apply Forall_cons; [auto|]); apply Forall_nil.
Qed.

(** X17. Overcrowding: an Alive cell with three or more Alive neighbours
    never stays Alive and never becomes Stable; it becomes Dying or Chaotic,
    whatever the bias, the branch probability and the flag. *)
Theorem crowded_alive_leaves (draws : nat -> Q) (m : NFACAModel)
  (a a' : NFACellAgent) (s s' : nat) :
  agent_step draws m a s = Ok (a', s') ->
  state a = "Alive" ->
  3 <= alive_neighbors_of (get_neighbors m (pos a)) ->
  next_state a' = "Dying" \/ next_state a' = "Chaotic".
Proof.
  intros H Hst Hhigh. apply agent_step_result in H.
  destruct H as (next & H & ->).
  apply computeNext_member in H. destruct H as (l & c & Hk & _ & Hin & ->).
  rewrite count_where_map in Hk.
  change (get_transitions _) with (get_transitions m) in Hk.
  fold (alive_neighbors_of (get_neighbors m (pos a))) in Hk.
  simpl. rewrite (override_table_identity m _ l c Hk Hin).
  rewrite Hst in Hk.
  assert (Hsym : input_symbol_of
                   (alive_neighbors_of (get_neighbors m (pos a))) = "M" \/
                 input_symbol_of
                   (alive_neighbors_of (get_neighbors m (pos a))) = "H").
  { unfold input_symbol_of.
    assert (E : (alive_neighbors_of (get_neighbors m (pos a)) <=? 2) = false)
      by (apply Z.leb_gt; lia).
    rewrite E. destruct (_ <=? 4); auto. }
  pose proof (crowded_alive_lists m _ l Hsym Hk) as HF.
  rewrite Forall_forall in HF. now apply HF.
Qed.

Lemma crowded_alive_leaves_witness :
  agent_step half_draws small_model (mkAgent (0,0) (0,0) "Alive" "Alive")
    0%nat
  = Ok (mkAgent (0,0) (0,0) "Alive" "Chaotic", 1%nat) /\
  3 <= alive_neighbors_of (get_neighbors small_model (0,0)) /\
  ("Chaotic" = "Dying" \/ "Chaotic" = "Chaotic").
Proof.
  split; [reflexivity|]. split; [discriminate|].
  apply (crowded_alive_leaves half_draws small_model
           (mkAgent (0,0) (0,0) "Alive" "Alive")
           (mkAgent (0,0) (0,0) "Alive" "Chaotic") 0%nat 1%nat);
    [reflexivity|reflexivity|discriminate].
Defined.

Lemma no_alive_no_neighbors (m : NFACAModel) (p : Z * Z) :
  count_state m "Alive" = 0 ->
  alive_neighbors_of (get_neighbors m p) = 0.
Proof.
  intros H. unfold alive_neighbors_of. apply count_where_none.
  intros n Hn. unfold get_neighbors in Hn. apply in_flat_map in Hn.
  destruct Hn as (c & _ & Hn). apply filter_In in Hn. destruct Hn as [Hn _].
  unfold count_state in H.
  destruct (state n =? "Alive")%string eqn:E; [|reflexivity].
  exfalso. revert H Hn. generalize (agents m) as l.
  induction l as [|x l IH]; intros H Hn; [contradiction|].
  rewrite count_where_cons in H.
  pose proof (count_where_nonneg (fun a => (state a =? "Alive")%string) l).
  destruct Hn as [-> | Hn].
  - rewrite E in H. lia.
  - apply IH; [|exact Hn]. destruct (state x =? "Alive")%string; lia.
Qed.

(** X18. From a grid without any Alive cell, a step that returns leaves
    every cell Alive or Stable: Dying and Chaotic cells all recover, and
    none appears. *)
Theorem quiet_grid_recovers (draws : nat -> Q) (m m' : NFACAModel)
  (s s' : nat) :
  model_step draws m s = Ok (m', s') ->
  count_state m "Alive" = 0 ->
  Forall (fun a => state a = "Alive" \/ state a = "Stable") (agents m') /\
  count_state m' "Dying" = 0 /\ count_state m' "Chaotic" = 0.
Proof.
  intros H Hq. apply model_step_result in H.
  destruct H as (_ & _ & Hcells & _).
  assert (HF : Forall (fun a => state a = "Alive" \/ state a = "Stable")
                 (agents m')).
  { eapply Forall2_right; [|exact Hcells].
    intros a a' (_ & _ & k & k' & _ & _ & Hc).
    apply computeNext_member in Hc.
    destruct Hc as (l & c & Hk & _ & Hin & Hnext).
    rewrite count_where_map in Hk.
    change (get_transitions _) with (get_transitions m) in Hk.
    fold (alive_neighbors_of (get_neighbors m (pos a))) in Hk.
    rewrite (override_table_identity m _ l c Hk Hin) in Hnext.
    rewrite (no_alive_no_neighbors m (pos a) Hq) in Hk. simpl in Hk.
    apply low_density_lists in Hk. rewrite Forall_forall in Hk.
    rewrite Hnext. now apply Hk. }
  split; [exact HF|].
  rewrite Forall_forall in HF.
  split; apply count_where_none; intros a Ha;
    destruct (HF a Ha) as [-> | ->]; reflexivity.
Qed.

Lemma quiet_grid_recovers_witness :
  (exists m' s', model_step half_draws quiet_model 0%nat = Ok (m', s') /\
                 count_state m' "Chaotic" = 0) /\
  count_state quiet_model "Alive" = 0.
Proof.
  split; [|reflexivity].
  destruct (model_step half_draws quiet_model 0%nat) as [[m' s']|] eqn:E.
  - exists m', s'. split; [reflexivity|].
    apply (quiet_grid_recovers half_draws quiet_model m' 0%nat s' E).
    reflexivity.
  - vm_compute in E. discriminate.
Defined.
